(** * Adapter registry, operation dispatcher and MeshSync ingestion loop

    A shallow embedding of [server/handlers/mesh_ops_handlers.go] (package
    [handlers]) and of the MeshSync resolver functions that follow it in the
    same source listing (package [resolver]).

    - [GoSlice]  : Go slices over a shared backing array ([s[lo:hi]], [append]).
    - [Handlers] : [addAdapter], [deleteAdapter], [AdapterPingHandler],
                   [checkAdapterPingability], [MeshOpsHandler], and their
                   callers [MeshAdapterConfigHandler] and [AdaptersHandler].
    - [Resolver] : [getMeshSyncStatus], [recordMeshSyncData],
                   [listernToEvents], [listenToMeshSyncEvents].

    External collaborators (the adapter RPC client, the port allocator, the
    uuid generator, the database handler, the JSON codec) are not part of the
    listing; they are section variables.  Every call to one of them is
    recorded, with its result, in an event log, so that "no remote call was
    issued" is a statement about that log.

    Not modelled: calls to the loggers and the JSON dumps made only for
    them; nil adapter pointers inside a slice; a nil message or a closed
    channel; the goroutine that [CheckAdapterAvailability] starts (its start
    is an event, its later writes to [Available] are not). *)

From Stdlib Require Import ZArith Lia.
From stdpp Require Import base list strings pretty.

Local Open Scope Z_scope.
Set Default Proof Using "Type".

(* ===================================================================== *)
(** ** Go slices                                                          *)
(* ===================================================================== *)

(** A Go slice is a window [off, off+len) on a backing array; two slices cut
    from the same array alias each other.  [append] writes in place while the
    capacity allows it and copies to a fresh array otherwise. *)
Module GoSlice.

Record slice (A : Type) := Slice { arr : list A; off : nat; len : nat }.
Arguments Slice {A} _ _ _.
Arguments arr {A} _.
Arguments off {A} _.
Arguments len {A} _.

Section Slice.
Variable A : Type.

(** [cap(s)] *)
Definition cap (s : slice A) : nat := (length (arr s) - off s)%nat.

(** The elements a [range] loop over [s] visits, in order. *)
Definition view (s : slice A) : list A := take (len s) (drop (off s) (arr s)).

(** The runtime invariant of every slice value: the window lies inside
    the backing array. *)
Definition wf (s : slice A) : Prop := (off s + len s ≤ length (arr s))%nat.

(** [[]T{}] and the nil slice: no elements, no capacity. *)
Definition nil_slice : slice A := Slice [] 0 0.

(** [s[lo:hi]]; Go panics unless [lo <= hi <= cap(s)]. *)
Definition in_bounds (s : slice A) (lo hi : nat) : Prop :=
  (lo ≤ hi ∧ hi ≤ cap s)%nat.

Definition reslice (s : slice A) (lo hi : nat) : slice A :=
  Slice (arr s) (off s + lo) (hi - lo).

(** Overwrite [l] from position [pos] with [xs] (a [memmove]). *)
Definition write (l : list A) (pos : nat) (xs : list A) : list A :=
  take pos l ++ xs ++ drop (pos + length xs) l.

(** [append(s, xs...)].  The values [xs] are read before the write, as
    [memmove] guarantees for overlapping ranges.  When the capacity is
    exceeded the fresh array is modelled with no spare capacity. *)
Definition append (s : slice A) (xs : list A) : slice A :=
  if decide (len s + length xs ≤ cap s)%nat
  then Slice (write (arr s) (off s + len s) xs) (off s) (len s + length xs)
  else Slice (view s ++ xs) 0 (len s + length xs).

(** [s[i]]; [None] stands for the index-out-of-range panic. *)
Definition index (s : slice A) (i : nat) : option A := view s !! i.

Lemma view_length (s : slice A) : wf s → length (view s) = len s.
Proof.
  unfold wf, view. intros H. rewrite length_take, length_drop. lia.
Qed.

(** A well-formed slice splits its backing array in three. *)
Lemma wf_split (s : slice A) :
  wf s →
  ∃ pre post, arr s = pre ++ view s ++ post ∧ length pre = off s.
Proof.
  intros H. exists (take (off s) (arr s)),
    (drop (len s) (drop (off s) (arr s))). split.
  - unfold view. rewrite take_drop. by rewrite take_drop.
  - rewrite length_take. unfold wf in H. lia.
Qed.

Lemma view_of_app (pre v post : list A) (n : nat) :
  n = length v →
  view (Slice (pre ++ v ++ post) (length pre) n) = v.
Proof.
  intros ->. unfold view. simpl. rewrite drop_app_length.
  by rewrite take_app_length.
Qed.

Lemma view_reslice (s : slice A) (lo hi : nat) :
  wf s → (lo ≤ hi)%nat → (hi ≤ len s)%nat →
  view (reslice s lo hi) = drop lo (take hi (view s)).
Proof.
  intros Hwf Hlo Hhi. unfold view, reslice. simpl.
  rewrite take_take, Nat.min_l by lia.
  replace hi with (lo + (hi - lo))%nat at 2 by lia.
  by rewrite <- take_drop_commute, drop_drop.
Qed.

Lemma reslice_wf (s : slice A) (lo hi : nat) :
  wf s → (lo ≤ hi)%nat → (hi ≤ len s)%nat → wf (reslice s lo hi).
Proof. unfold wf, reslice. simpl. lia. Qed.

Lemma reslice_in_bounds (s : slice A) (lo hi : nat) :
  wf s → (lo ≤ hi)%nat → (hi ≤ len s)%nat → in_bounds s lo hi.
Proof. unfold wf, in_bounds, cap. lia. Qed.

(** [append] extends what the slice shows by exactly [xs], whether it
    writes in place or reallocates. *)
Lemma view_append (s : slice A) (xs : list A) :
  wf s → view (append s xs) = view s ++ xs.
Proof.
  intros Hwf. unfold append. case_decide as Hcap.
  - destruct (wf_split s Hwf) as (pre & post & Harr & Hpre).
    pose proof (view_length s Hwf) as Hlen.
    unfold write. rewrite Harr.
    assert (Hpost : (length xs ≤ length post)%nat).
    { unfold cap in Hcap. rewrite Harr, !length_app in Hcap. lia. }
    replace (take (off s + len s) (pre ++ view s ++ post))
      with (pre ++ view s).
    2:{ rewrite app_assoc, take_app_length'; [done|].
        rewrite length_app. lia. }
    replace (drop (off s + len s + length xs) (pre ++ view s ++ post))
      with (drop (length xs) post).
    2:{ rewrite app_assoc, drop_app_ge by (rewrite length_app; lia).
        f_equal. rewrite length_app. lia. }
    rewrite <- app_assoc.
    rewrite <- Hpre.
    replace (len s + length xs)%nat with (length (view s ++ xs))
      by (rewrite length_app; lia).
    rewrite (app_assoc (view s) xs).
    by apply view_of_app.
  - pose proof (view_length s Hwf) as Hlen.
    unfold view at 1. simpl. rewrite drop_0.
    apply take_ge. rewrite length_app. lia.
Qed.

Lemma append_wf (s : slice A) (xs : list A) : wf s → wf (append s xs).
Proof.
  intros Hwf. pose proof (view_length s Hwf) as Hlen.
  unfold append. case_decide as Hcap; unfold wf in *; simpl.
  - unfold write, cap in *. rewrite !length_app, length_take, length_drop. lia.
  - rewrite length_app. lia.
Qed.

(** The three ways of cutting position [i] out of a slice:
    [s[1:]] when [i] is 0, [s[:len-1]] when [i] is the last index, and
    [append(s[:i], s[i+1:]...)], which moves the tail one place down
    inside the backing array. *)
Lemma view_cut_first (s : slice A) :
  wf s → (0 < len s)%nat →
  view (reslice s 1 (len s))
  = drop 1 (view s).
Proof.
  intros Hwf Hlen. pose proof (view_length s Hwf) as Hv.
  rewrite view_reslice by (done || lia).
  by rewrite <- Hv, take_ge by lia.
Qed.

Lemma view_cut_last (s : slice A) (i : nat) :
  wf s → S i = len s →
  view (reslice s 0 i)
  = take i (view s) ++ drop (S i) (view s).
Proof.
  intros Hwf Hlen. pose proof (view_length s Hwf) as Hv.
  rewrite view_reslice by (done || lia).
  rewrite drop_0, (drop_ge _ (S i)) by lia. by rewrite app_nil_r.
Qed.

Lemma view_cut_middle (s : slice A) (i : nat) :
  wf s → (i < len s)%nat →
  view
    (append (reslice s 0 i)
       (view (reslice s (S i) (len s))))
  = take i (view s) ++ drop (S i) (view s).
Proof.
  intros Hwf Hlen. pose proof (view_length s Hwf) as Hv.
  rewrite view_append by (apply reslice_wf; done || lia).
  rewrite !view_reslice by (done || lia).
  rewrite drop_0. f_equal. by rewrite <- Hv, take_ge by lia.
Qed.

End Slice.

Arguments cap {A} _.
Arguments view {A} _.
Arguments wf {A} _.
Arguments nil_slice {A}.
Arguments in_bounds {A} _ _ _.
Arguments reslice {A} _ _ _.
Arguments write {A} _ _ _.
Arguments append {A} _ _.
Arguments index {A} _ _.

End GoSlice.


(* ===================================================================== *)
(** ** Package handlers                                                   *)
(* ===================================================================== *)

Module Handlers.

(** The named errors are declared in the package's error file, outside the
    listing; only their identity is used.  [ErrExternal] is an error value
    produced by a collaborator (RPC client, uuid, kubeconfig generation). *)
Inductive error :=
| ErrValidAdapter
| ErrInvalidK8SConfig
| ErrMeshClient
| ErrAddAdapter
| ErrExternal (description : string).

(** A Go [(T, error)] pair of which exactly one side is meaningful. *)
Inductive result (A : Type) :=
| Ok (a : A)
| Err (e : error).
Arguments Ok {A} _.
Arguments Err {A} _.

Definition StatusBadRequest : Z := 400.
Definition StatusInternalServerError : Z := 500.

Inductive ProviderType := LocalProviderType | RemoteProviderType.

Section Handlers.

(** Types declared in packages [models] and [meshes], outside the listing. *)
Variable PortT : Type.
Variable SupportedOperation : Type.
Variable K8sContext : Type.

(** [fmt]'s rendering of a port under the verbs [%s] and [%d]. *)
Variable fmtS : PortT → string.
Variable fmtD : PortT → string.

(** [models.Adapter], with the fields the listing reads or writes. *)
Record Adapter := {
  Host : string;
  Name : string;
  Version : string;
  GitCommitSHA : string;
  Ops : list SupportedOperation;
  Port : PortT;
  Available : bool
}.

(** [meshes.ComponentInfoResponse] *)
Record ComponentInfoResponse := {
  ciName : string;
  ciVersion : string;
  ciGitSha : string
}.

(** [meshes.ApplyRuleRequest] *)
Record ApplyRuleRequest := {
  OperationId : string;
  OpName : string;
  Username : string;
  Namespace : string;
  CustomBody : string;
  DeleteOp : bool;
  KubeConfigs : list string
}.

(** What [http.Error] writes: the text of an error value, or a literal. *)
Inductive HttpBody :=
| ErrorText (e : error)
| Text (s : string).

(** Every interaction with the outside world, with its result. *)
Inductive Event :=
| EvCreateClient (host : string) (err : option error)
| EvClose (host : string)
| EvSupportedOperations (host : string) (res : result (list SupportedOperation))
| EvComponentInfo (host : string) (res : result ComponentInfoResponse)
| EvGetNextAvailablePort (port : PortT)
| EvCheckAdapterAvailability (adapter : Adapter)
| EvTrackerAddAdapter (adapter : Adapter)
| EvNewV4 (res : result string)
| EvApplyOperation (host : string) (req : ApplyRuleRequest) (err : option error)
| EvViperSetDefault (key value : string)
| EvDial (address : string) (connected : bool)
| EvConnClose (address : string)
| EvHttpError (body : HttpBody) (code : Z)
| EvWrite (body : string)
| EvPanic.

Definition History := list Event.

(** The collaborators.  Each answers as a function of everything that has
    happened so far, so no assumption is made on how a remote adapter, the
    port allocator or the uuid source behave from one call to the next. *)
Variable env_CreateClient : History → string → option error.
Variable env_SupportedOperations :
  History → string → result (list SupportedOperation).
Variable env_ComponentInfo : History → string → result ComponentInfoResponse.
Variable env_GetNextAvailablePort : History → PortT.
Variable env_NewV4 : History → result string.
Variable env_ApplyOperation :
  History → string → ApplyRuleRequest → option error.
Variable env_Dial : History → string → bool.

(** [K8sContext.GenerateKubeConfig], a function of the context value. *)
Variable GenerateKubeConfig : K8sContext → result string.

(** *** The effect monad: read the history, emit new events *)

Definition M (A : Type) : Type := History → A * list Event.

Definition ret {A : Type} (a : A) : M A := λ _, (a, []).

Definition bind {A B : Type} (m : M A) (k : A → M B) : M B :=
  λ h, let (a, e1) := m h in
       let (b, e2) := k a (h ++ e1) in
       (b, e1 ++ e2).

Notation "'let*' x ':=' m 'in' k" := (bind m (λ x, k))
  (at level 10, x name, m at level 100, k at level 200).
Notation "m1 ';;' m2" := (bind m1 (λ _, m2))
  (at level 100, m2 at level 200, right associativity).

Definition emit (e : Event) : M unit := λ _, (tt, [e]).

(** An oracle call: compute the answer from the history, log it. *)
Definition call {A : Type} (ask : History → A) (ev : A → Event) : M A :=
  λ h, let a := ask h in (a, [ev a]).

Definition CreateClient (host : string) : M (option error) :=
  call (λ h, env_CreateClient h host) (EvCreateClient host).

Definition SupportedOperations (host : string)
  : M (result (list SupportedOperation)) :=
  call (λ h, env_SupportedOperations h host) (EvSupportedOperations host).

Definition ComponentInfo (host : string) : M (result ComponentInfoResponse) :=
  call (λ h, env_ComponentInfo h host) (EvComponentInfo host).

Definition GetNextAvailablePort : M PortT :=
  call env_GetNextAvailablePort EvGetNextAvailablePort.

Definition NewV4 : M (result string) := call env_NewV4 EvNewV4.

Definition ApplyOperation (host : string) (req : ApplyRuleRequest)
  : M (option error) :=
  call (λ h, env_ApplyOperation h host req) (EvApplyOperation host req).

Definition Dial (address : string) : M bool :=
  call (λ h, env_Dial h address) (EvDial address).

Definition httpError (body : HttpBody) (code : Z) : M unit :=
  emit (EvHttpError body code).

(** *** Requests and the objects handed to a handler *)

Record Request := {
  FormValue : string → string;
  QueryGet : string → string;
  (** [req.Context().Value(models.KubeClustersKey)] asserted to
      [[]models.K8sContext]; [None] when the assertion fails. *)
  KubeClusters : option (list K8sContext)
}.

(** A nil [MeshAdapters] is replaced by the empty slice on entry to each
    handler; both are [GoSlice.nil_slice] here. *)
Record Preference := { MeshAdapters : GoSlice.slice Adapter }.

Record User := { UserID : string }.

Record Provider := {
  GetProviderType : ProviderType;
  GetProviderToken : Request → result string
}.

(** *** addAdapter *)

(** The duplicate scan: [for _, adapter := range meshAdapters], setting
    [alreadyConfigured] and breaking at the first entry whose [Host] is the
    requested address. *)
Fixpoint addAdapter_scan (l : list Adapter) (meshLocationURL : string)
    (alreadyConfigured : bool) : bool :=
  match l with
  | [] => alreadyConfigured
  | adapter :: rest =>
      if decide (Host adapter = meshLocationURL) then true
      else addAdapter_scan rest meshLocationURL alreadyConfigured
  end.

(** The context, the preference object and the provider are parameters
    the body never reads ([_] in the source); they are left out. *)
Definition addAdapter (meshAdapters : GoSlice.slice Adapter)
    (meshLocationURL : string)
  : M (GoSlice.slice Adapter * option error) :=
  let alreadyConfigured :=
    addAdapter_scan (GoSlice.view meshAdapters) meshLocationURL false in
  if alreadyConfigured then ret (meshAdapters, None)
  else
    let* c := CreateClient meshLocationURL in
    match c with
    | Some _ => ret (meshAdapters, Some ErrMeshClient)
    | None =>
        (* defer mClient.Close() *)
        let* out :=
          (let* respOps := SupportedOperations meshLocationURL in
           match respOps with
           | Err err => ret (meshAdapters, Some err)
           | Ok ops =>
               let* meshInfo := ComponentInfo meshLocationURL in
               match meshInfo with
               | Err err => ret (meshAdapters, Some err)
               | Ok info =>
                   let* port := GetNextAvailablePort in
                   let adapter :=
                     {| Host := meshLocationURL;
                        Name := ciName info;
                        Version := ciVersion info;
                        GitCommitSHA := ciGitSha info;
                        Ops := ops;
                        Port := port;
                        Available := true |} in
                   emit (EvCheckAdapterAvailability adapter) ;;
                   emit (EvTrackerAddAdapter adapter) ;;
                   ret (GoSlice.append meshAdapters [adapter], None)
               end
           end) in
        emit (EvClose meshLocationURL) ;;
        ret out
    end.

(** *** deleteAdapter *)

(** The index scan shared by [deleteAdapter] and [MeshOpsHandler]:
    [aID := -1; for i, ad := range meshAdapters { if <match> { aID = i;
    break } }], with [i] the index of the head of [l]. *)
Fixpoint rangeIndex (matches : Adapter → bool) (l : list Adapter)
    (i aID : Z) : Z :=
  match l with
  | [] => aID
  | ad :: rest =>
      if matches ad then i else rangeIndex matches rest (i + 1) aID
  end.

(** [adapterLoc == ad.Host] *)
Definition deleteAdapter_scan (adapterLoc : string) :=
  rangeIndex (λ ad, bool_decide (adapterLoc = Host ad)).

(** The response writer [w] is the event log. *)
Definition deleteAdapter (meshAdapters : GoSlice.slice Adapter)
    (req : Request) : M (GoSlice.slice Adapter * option error) :=
  let adapterLoc := QueryGet req "adapter" in
  let adaptersLen := Z.of_nat (GoSlice.len meshAdapters) in
  let aID :=
    deleteAdapter_scan adapterLoc (GoSlice.view meshAdapters) 0 (-1) in
  if aID <? 0 then
    httpError (ErrorText ErrValidAdapter) StatusBadRequest ;;
    ret (meshAdapters, Some ErrValidAdapter)
  else
    let newMeshAdapters :=
      if aID =? 0 then
        GoSlice.reslice meshAdapters 1 (GoSlice.len meshAdapters)
      else if aID =? adaptersLen - 1 then
        GoSlice.reslice meshAdapters 0 (Z.to_nat (adaptersLen - 1))
      else
        GoSlice.append
          (GoSlice.reslice meshAdapters 0 (Z.to_nat aID))
          (GoSlice.view
             (GoSlice.reslice meshAdapters (Z.to_nat (aID + 1))
                (GoSlice.len meshAdapters))) in
    ret (newMeshAdapters, None).

(** *** AdapterPingHandler *)

(** [var targetAdapter *models.Adapter], set at the first entry whose
    [Host] is the requested address. *)
Fixpoint AdapterPingHandler_scan (adapterLoc : string) (l : list Adapter)
    (targetAdapter : option Adapter) : option Adapter :=
  match l with
  | [] => targetAdapter
  | ad :: rest =>
      if decide (adapterLoc = Host ad) then Some ad
      else AdapterPingHandler_scan adapterLoc rest targetAdapter
  end.

Definition checkAdapterPingability (adapter : Adapter) : M bool :=
  let address := "localhost:" +:+ fmtD (Port adapter) in
  let* connected := Dial address in
  if connected then emit (EvConnClose address) ;; ret true
  else ret false.

Definition AdapterPingHandler (req : Request) (prefObj : Preference)
  : M unit :=
  let meshAdapters := MeshAdapters prefObj in
  let adapterLoc := QueryGet req "adapter" in
  match AdapterPingHandler_scan adapterLoc (GoSlice.view meshAdapters) None
  with
  | None => httpError (ErrorText ErrValidAdapter) StatusBadRequest
  | Some targetAdapter =>
      let* pingable := checkAdapterPingability targetAdapter in
      if negb pingable then
        httpError (Text "Adapter ping failed") StatusInternalServerError
      else emit (EvWrite "{}")
  end.

(** *** MeshOpsHandler *)

(** [fmt.Sprintf("%s:%s", ad.Host, ad.Port)] *)
Definition hostPort (ad : Adapter) : string :=
  Host ad +:+ ":" +:+ fmtS (Port ad).

(** [adapterLoc == fmt.Sprintf("%s:%s", ad.Host, ad.Port)] *)
Definition MeshOpsHandler_scan (adapterLoc : string) :=
  rangeIndex (λ ad, bool_decide (adapterLoc = hostPort ad)).

(** [for _, c := range mk8sContexts]: one credential blob per context,
    returning at the first generation error. *)
Fixpoint MeshOpsHandler_configs (cs : list K8sContext)
    (configs : list string) : result (list string) :=
  match cs with
  | [] => Ok configs
  | c :: rest =>
      match GenerateKubeConfig c with
      | Err err => Err err
      | Ok kc => MeshOpsHandler_configs rest (configs ++ [kc])
      end
  end.

(** The opening block: a remote provider's token becomes the default of
    the [opt-token] setting. *)
Definition MeshOpsHandler_token (req : Request) (provider : Provider)
  : M unit :=
  match GetProviderType provider with
  | RemoteProviderType =>
      match GetProviderToken provider req with
      | Ok token => emit (EvViperSetDefault "opt-token" token)
      | Err _ => ret tt
      end
  | LocalProviderType => ret tt
  end.

Definition MeshOpsHandler (req : Request) (prefObj : Preference)
    (user : User) (provider : Provider) : M unit :=
  MeshOpsHandler_token req provider ;;
  let meshAdapters := MeshAdapters prefObj in
  let adapterLoc := FormValue req "adapter" in
  let aID :=
    MeshOpsHandler_scan adapterLoc (GoSlice.view meshAdapters) 0 (-1) in
  if aID <? 0 then httpError (ErrorText ErrValidAdapter) StatusBadRequest
  else
    let opName := FormValue req "query" in
    let customBody := FormValue req "customBody" in
    let namespace := FormValue req "namespace" in
    let deleteOp := FormValue req "deleteOp" in
    let namespace :=
      if decide (namespace = "") then "default" else namespace in
    let (mk8sContexts, ok) :=
      match KubeClusters req with
      | Some cs => (cs, true)
      | None => ([], false)
      end in
    if negb ok || (length mk8sContexts =? 0)%nat then
      httpError (ErrorText ErrInvalidK8SConfig) StatusBadRequest
    else
      match MeshOpsHandler_configs mk8sContexts [] with
      | Err err => httpError (ErrorText err) StatusInternalServerError
      | Ok configs =>
          match GoSlice.index meshAdapters (Z.to_nat aID) with
          | None => emit EvPanic
          | Some target =>
              let* c := CreateClient (Host target) in
              match c with
              | Some err =>
                  httpError (ErrorText err) StatusInternalServerError
              | None =>
                  (* defer mClient.Close() *)
                  (let* u := NewV4 in
                   match u with
                   | Err err =>
                       httpError (ErrorText err) StatusInternalServerError
                   | Ok operationID =>
                       let* r :=
                         ApplyOperation (Host target)
                           {| OperationId := operationID;
                              OpName := opName;
                              Username := UserID user;
                              Namespace := namespace;
                              CustomBody := customBody;
                              DeleteOp := bool_decide (deleteOp ≠ "");
                              KubeConfigs := configs |} in
                       match r with
                       | Some err =>
                           httpError (ErrorText err)
                             StatusInternalServerError
                       | None => ret tt
                       end
                   end) ;;
                  emit (EvClose (Host target))
              end
          end
      end.

(** *** Observations on an event log *)

(** A call that reaches a remote adapter. *)
Definition isRemoteCall (e : Event) : bool :=
  match e with
  | EvCreateClient _ _ | EvSupportedOperations _ _ | EvComponentInfo _ _
  | EvApplyOperation _ _ _ => true
  | _ => false
  end.

(** A capability RPC of the registration path. *)
Definition isCapabilityRPC (e : Event) : bool :=
  match e with
  | EvSupportedOperations _ _ | EvComponentInfo _ _ => true
  | _ => false
  end.

(** A step that makes a new adapter exist: port allocation, start of the
    availability check, insertion in the tracker. *)
Definition isAllocation (e : Event) : bool :=
  match e with
  | EvGetNextAvailablePort _ | EvCheckAdapterAvailability _
  | EvTrackerAddAdapter _ => true
  | _ => false
  end.

(** Number of entries registered for a host. *)
Definition hostCount (host : string) (l : list Adapter) : nat :=
  length (filter (λ a, Host a = host) l).

(** The registry invariant: at most one adapter per host. *)
Definition uniqueHosts (l : list Adapter) : Prop := NoDup (Host <$> l).

(** What can go wrong while registering a new host from history [h]: the
    connection cannot be opened, or it can and [SupportedOperations] fails,
    or both succeed and [ComponentInfo] fails. *)
Definition registrationFails (url : string) (h : History) : Prop :=
  let h1 := h ++ [EvCreateClient url None] in
  (∃ e, env_CreateClient h url = Some e)
  ∨ (env_CreateClient h url = None
     ∧ ∃ e, env_SupportedOperations h1 url = Err e)
  ∨ (env_CreateClient h url = None
     ∧ ∃ ops e, env_SupportedOperations h1 url = Ok ops
                ∧ env_ComponentInfo
                    (h ++ [EvCreateClient url None]
                       ++ [EvSupportedOperations url (Ok ops)]) url
                  = Err e).

(** *** Facts on the scans *)

Lemma addAdapter_scan_found (l : list Adapter) (url : string) (b : bool) :
  (∃ a, a ∈ l ∧ Host a = url) → addAdapter_scan l url b = true.
Proof.
  induction l as [|x l IH]; intros (a & Hin & Ha).
  - by apply elem_of_nil in Hin.
  - simpl. case_decide as Hx; [done|].
    apply IH. apply elem_of_cons in Hin as [->|Hin]; [done|eauto].
Qed.

Lemma addAdapter_scan_fresh (l : list Adapter) (url : string) (b : bool) :
  (∀ a, a ∈ l → Host a ≠ url) → addAdapter_scan l url b = b.
Proof.
  induction l as [|x l IH]; intros Hfresh; [done|].
  simpl. case_decide as Hx.
  - exfalso. eapply Hfresh; [|exact Hx]. by left.
  - apply IH. intros a Ha. apply Hfresh. by right.
Qed.

Lemma rangeIndex_none (matches : Adapter → bool) (l : list Adapter)
    (i aID : Z) :
  (∀ ad, ad ∈ l → matches ad = false) → rangeIndex matches l i aID = aID.
Proof.
  revert i. induction l as [|x l IH]; intros i Hno; [done|].
  simpl. rewrite (Hno x) by (by left).
  apply IH. intros ad Had. apply Hno. by right.
Qed.

Lemma rangeIndex_first (matches : Adapter → bool) (l : list Adapter)
    (i aID : Z) (n : nat) (a : Adapter) :
  l !! n = Some a → matches a = true →
  (∀ j b, (j < n)%nat → l !! j = Some b → matches b = false) →
  rangeIndex matches l i aID = i + Z.of_nat n.
Proof.
  revert i n. induction l as [|x l IH]; intros i n Hn Ha Hfirst; [done|].
  destruct n as [|n]; simpl in *.
  - injection Hn as ->. rewrite Ha. lia.
  - rewrite (Hfirst 0%nat x) by (done || lia).
    rewrite (IH (i + 1) n); [lia|done..|].
    intros j b Hj Hb. apply (Hfirst (S j) b); [lia|done].
Qed.

(** Either nothing matches and the initial [aID] comes back, or the result
    is the index of the first matching entry. *)
Lemma rangeIndex_cases (matches : Adapter → bool) (l : list Adapter)
    (i aID : Z) :
  (rangeIndex matches l i aID = aID ∧ ∀ ad, ad ∈ l → matches ad = false)
  ∨ ∃ n a, rangeIndex matches l i aID = i + Z.of_nat n
           ∧ l !! n = Some a ∧ matches a = true
           ∧ ∀ j b, (j < n)%nat → l !! j = Some b → matches b = false.
Proof.
  revert i. induction l as [|x l IH]; intros i.
  - left. split; [done|]. intros ad Had. by apply elem_of_nil in Had.
  - simpl. destruct (matches x) eqn:Hx.
    + right. exists 0%nat, x. repeat split; [lia|done|lia..].
    + destruct (IH (i + 1)) as [[Heq Hno]|(n & a & Heq & Hn & Ha & Hfirst)].
      * left. split; [done|]. intros ad Had.
        apply elem_of_cons in Had as [->|Had]; [done|by apply Hno].
      * right. exists (S n), a. repeat split; [lia|done..|].
        intros [|j] b Hj Hb; simpl in Hb; [by injection Hb as <-|].
        apply (Hfirst j b); [lia|done].
Qed.

Lemma hostCount_fresh (host : string) (l : list Adapter) :
  (∀ a, a ∈ l → Host a ≠ host) → hostCount host l = 0%nat.
Proof.
  unfold hostCount. induction l as [|x l IH]; intros Hfresh; [done|].
  rewrite filter_cons. case_decide as Hx.
  - exfalso. eapply Hfresh; [|exact Hx]. by left.
  - apply IH. intros a Ha. apply Hfresh. by right.
Qed.

Lemma hostCount_app (host : string) (l1 l2 : list Adapter) :
  hostCount host (l1 ++ l2) = (hostCount host l1 + hostCount host l2)%nat.
Proof. unfold hostCount. by rewrite filter_app, length_app. Qed.

Lemma hostCount_unique (host : string) (l : list Adapter) :
  uniqueHosts l → (∃ a, a ∈ l ∧ Host a = host) → hostCount host l = 1%nat.
Proof.
  unfold uniqueHosts, hostCount.
  induction l as [|x l IH]; intros Hnd (a & Hin & Ha).
  - by apply elem_of_nil in Hin.
  - rewrite fmap_cons in Hnd. apply NoDup_cons in Hnd as [Hx Hnd].
    rewrite filter_cons. case_decide as Hxh.
    + simpl. f_equal. apply hostCount_fresh. intros b Hb Hbh.
      apply Hx. apply list_elem_of_fmap. exists b. split; [congruence|done].
    + apply IH; [done|]. exists a. split; [|done].
      apply elem_of_cons in Hin as [->|Hin]; [done|done].
Qed.

(** *** Registration *)

Lemma addAdapter_duplicate (meshAdapters : GoSlice.slice Adapter)
    (meshLocationURL : string) (h : History) :
  (∃ a, a ∈ GoSlice.view meshAdapters ∧ Host a = meshLocationURL) →
  addAdapter meshAdapters meshLocationURL h = ((meshAdapters, None), []).
Proof.
  intros Hdup. unfold addAdapter.
  by rewrite (addAdapter_scan_found _ _ false Hdup).
Qed.

(** C1.  Registering a host that matches an existing entry is a no-op:
    [addAdapter] returns the very slice it was given and a nil error, and its
    event log is empty, so neither [SupportedOperations] nor [ComponentInfo]
    (nor any other call) is issued; in a registry with at most one adapter
    per host, the returned list holds exactly one entry for that host. *)
Theorem addAdapter_already_configured (meshAdapters : GoSlice.slice Adapter)
    (meshLocationURL : string) (h : History) :
  (∃ a, a ∈ GoSlice.view meshAdapters ∧ Host a = meshLocationURL) →
  addAdapter meshAdapters meshLocationURL h = ((meshAdapters, None), [])
  ∧ Forall (λ e, isCapabilityRPC e = false)
      (addAdapter meshAdapters meshLocationURL h).2
  ∧ (uniqueHosts (GoSlice.view meshAdapters) →
     hostCount meshLocationURL
       (GoSlice.view (addAdapter meshAdapters meshLocationURL h).1.1)
     = 1%nat).
Proof.
  intros Hdup. rewrite (addAdapter_duplicate _ _ h Hdup). simpl.
  split; [done|]. split; [by constructor|].
  intros Huniq. by apply hostCount_unique.
Qed.

(** The three ways a registration of a new host can fail, with the exact
    log of each. *)
Lemma addAdapter_connection_error (meshAdapters : GoSlice.slice Adapter)
    (url : string) (h : History) (e : error) :
  (∀ a, a ∈ GoSlice.view meshAdapters → Host a ≠ url) →
  env_CreateClient h url = Some e →
  addAdapter meshAdapters url h
  = ((meshAdapters, Some ErrMeshClient), [EvCreateClient url (Some e)]).
Proof.
  intros Hfresh Hc. unfold addAdapter.
  rewrite (addAdapter_scan_fresh _ _ false Hfresh).
  unfold bind, CreateClient, call. by rewrite Hc.
Qed.

Lemma addAdapter_supported_operations_error
    (meshAdapters : GoSlice.slice Adapter) (url : string) (h : History)
    (e : error) :
  (∀ a, a ∈ GoSlice.view meshAdapters → Host a ≠ url) →
  env_CreateClient h url = None →
  env_SupportedOperations (h ++ [EvCreateClient url None]) url = Err e →
  addAdapter meshAdapters url h
  = ((meshAdapters, Some e),
     [EvCreateClient url None; EvSupportedOperations url (Err e);
      EvClose url]).
Proof.
  intros Hfresh Hc Hops. unfold addAdapter.
  rewrite (addAdapter_scan_fresh _ _ false Hfresh).
  unfold bind, CreateClient, SupportedOperations, call, emit.
  by rewrite Hc, Hops.
Qed.

Lemma addAdapter_component_info_error
    (meshAdapters : GoSlice.slice Adapter) (url : string) (h : History)
    (ops : list SupportedOperation) (e : error) :
  (∀ a, a ∈ GoSlice.view meshAdapters → Host a ≠ url) →
  env_CreateClient h url = None →
  env_SupportedOperations (h ++ [EvCreateClient url None]) url = Ok ops →
  env_ComponentInfo
    (h ++ [EvCreateClient url None] ++ [EvSupportedOperations url (Ok ops)])
    url = Err e →
  addAdapter meshAdapters url h
  = ((meshAdapters, Some e),
     [EvCreateClient url None; EvSupportedOperations url (Ok ops);
      EvComponentInfo url (Err e); EvClose url]).
Proof.
  intros Hfresh Hc Hops Hinfo. unfold addAdapter.
  rewrite (addAdapter_scan_fresh _ _ false Hfresh).
  unfold bind, CreateClient, SupportedOperations, ComponentInfo, call, emit.
  rewrite Hc, Hops. simpl. rewrite <- app_assoc. by rewrite Hinfo.
Qed.

(** A successful registration of a new host appends one available adapter
    for that host, after both capability RPCs and the port allocation. *)
Lemma addAdapter_success_inv (meshAdapters s1 : GoSlice.slice Adapter)
    (url : string) (h : History) (evs : list Event) :
  (∀ a, a ∈ GoSlice.view meshAdapters → Host a ≠ url) →
  addAdapter meshAdapters url h = ((s1, None), evs) →
  ∃ adapter, Host adapter = url ∧ Available adapter = true
             ∧ s1 = GoSlice.append meshAdapters [adapter]
             ∧ EvTrackerAddAdapter adapter ∈ evs.
Proof.
  intros Hfresh. unfold addAdapter.
  rewrite (addAdapter_scan_fresh _ _ false Hfresh).
  unfold bind, CreateClient, SupportedOperations, ComponentInfo,
    GetNextAvailablePort, call, emit, ret.
  destruct (env_CreateClient h url); [done|].
  destruct (env_SupportedOperations _ url); [|done].
  destruct (env_ComponentInfo _ url); [|done].
  simpl. intros [= <- <-]. eexists.
  split; [|split; [|split; [reflexivity|]]]; [done..|].
  apply list_elem_of_In. simpl. auto 10.
Qed.

(** Whatever the reason, a registration that returns an error hands back
    the slice it was given and has allocated nothing. *)
Lemma addAdapter_error_inv (meshAdapters s1 : GoSlice.slice Adapter)
    (url : string) (h : History) (err : error) (evs : list Event) :
  addAdapter meshAdapters url h = ((s1, Some err), evs) →
  s1 = meshAdapters ∧ Forall (λ e, isAllocation e = false) evs.
Proof.
  unfold addAdapter.
  destruct (addAdapter_scan _ _ _); [done|].
  unfold bind, CreateClient, SupportedOperations, ComponentInfo,
    GetNextAvailablePort, call, emit, ret.
  destruct (env_CreateClient h url).
  { intros [= <- _ <-]. split; [done|]. by repeat constructor. }
  destruct (env_SupportedOperations _ url).
  2:{ intros [= <- _ <-]. split; [done|]. by repeat constructor. }
  destruct (env_ComponentInfo _ url); [done|].
  intros [= <- _ <-]. split; [done|]. by repeat constructor.
Qed.

(** The registry after registering the same new host twice. *)
Lemma addAdapter_twice (meshAdapters s1 : GoSlice.slice Adapter)
    (url : string) (h : History) (evs : list Event) :
  GoSlice.wf meshAdapters →
  (∀ a, a ∈ GoSlice.view meshAdapters → Host a ≠ url) →
  addAdapter meshAdapters url h = ((s1, None), evs) →
  addAdapter s1 url (h ++ evs) = ((s1, None), [])
  ∧ hostCount url (GoSlice.view s1) = 1%nat.
Proof.
  intros Hwf Hfresh Hadd.
  destruct (addAdapter_success_inv _ _ _ _ _ Hfresh Hadd)
    as (adapter & Hhost & _ & -> & _).
  rewrite GoSlice.view_append by done. split.
  - apply addAdapter_duplicate. exists adapter.
    rewrite GoSlice.view_append by done. split; [|done].
    apply elem_of_app. right. by left.
  - rewrite hostCount_app, (hostCount_fresh _ _ Hfresh).
    unfold hostCount. rewrite filter_cons. by case_decide.
Qed.

(** C2.  While registering a new host, if the connection cannot be opened or
    either capability RPC fails, [addAdapter] returns an error together with
    the slice it was given: nothing is appended, and the log holds no port
    allocation, no availability check and no tracker insertion. *)
Theorem addAdapter_failure_adds_nothing
    (meshAdapters : GoSlice.slice Adapter) (url : string) (h : History) :
  (∀ a, a ∈ GoSlice.view meshAdapters → Host a ≠ url) →
  registrationFails url h →
  ∃ err evs,
    addAdapter meshAdapters url h = ((meshAdapters, Some err), evs)
    ∧ Forall (λ e, isAllocation e = false) evs
    ∧ hostCount url (GoSlice.view meshAdapters) = 0%nat.
Proof.
  intros Hfresh Hfail.
  assert (∃ err evs,
    addAdapter meshAdapters url h = ((meshAdapters, Some err), evs))
    as (err & evs & Hrun).
  { destruct Hfail as [(e & Hc)|[(Hc & e & Hops)|(Hc & ops & e & Hops & Hi)]].
    - eexists _, _. by apply addAdapter_connection_error.
    - eexists _, _. by apply addAdapter_supported_operations_error.
    - eexists _, _. by eapply addAdapter_component_info_error. }
  exists err, evs. split; [done|]. split.
  - by destruct (addAdapter_error_inv _ _ _ _ _ _ Hrun).
  - by apply hostCount_fresh.
Qed.

(** *** Removal *)

(** C3.  When no entry has the requested host, [deleteAdapter] answers
    400 with [ErrValidAdapter] and returns that error together with the
    slice it was given. *)
Theorem deleteAdapter_not_found (meshAdapters : GoSlice.slice Adapter)
    (req : Request) (h : History) :
  (∀ a, a ∈ GoSlice.view meshAdapters → Host a ≠ QueryGet req "adapter") →
  deleteAdapter meshAdapters req h
  = ((meshAdapters, Some ErrValidAdapter),
     [EvHttpError (ErrorText ErrValidAdapter) StatusBadRequest]).
Proof.
  intros Hno. unfold deleteAdapter, deleteAdapter_scan.
  rewrite rangeIndex_none; [done|].
  intros ad Had. apply bool_decide_eq_false. intros Heq.
  by apply (Hno ad Had).
Qed.

(** The scan stops at the first entry with the requested host. *)
Lemma deleteAdapter_scan_first (meshAdapters : GoSlice.slice Adapter)
    (adapterLoc : string) (i : nat) (a : Adapter) :
  GoSlice.view meshAdapters !! i = Some a →
  Host a = adapterLoc →
  (∀ j b, (j < i)%nat → GoSlice.view meshAdapters !! j = Some b →
          Host b ≠ adapterLoc) →
  deleteAdapter_scan adapterLoc (GoSlice.view meshAdapters) 0 (-1)
  = Z.of_nat i.
Proof.
  intros Hi Ha Hfirst. unfold deleteAdapter_scan.
  rewrite (rangeIndex_first _ _ 0 (-1) i a); [lia|done|..].
  - by apply bool_decide_eq_true.
  - intros j b Hj Hb. apply bool_decide_eq_false. intros Heq.
    by apply (Hfirst j b).
Qed.

(** C4.  When the first entry with the requested host is at position [i]
    (first, middle or last), [deleteAdapter] succeeds, writes nothing to the
    response, and the slice it returns shows the entries before [i] followed
    by the entries after [i], in their original order. *)
Theorem deleteAdapter_position_stable (meshAdapters : GoSlice.slice Adapter)
    (req : Request) (h : History) (i : nat) (a : Adapter) :
  GoSlice.wf meshAdapters →
  GoSlice.view meshAdapters !! i = Some a →
  Host a = QueryGet req "adapter" →
  (∀ j b, (j < i)%nat → GoSlice.view meshAdapters !! j = Some b →
          Host b ≠ QueryGet req "adapter") →
  ∃ newMeshAdapters,
    deleteAdapter meshAdapters req h = ((newMeshAdapters, None), [])
    ∧ GoSlice.wf newMeshAdapters
    ∧ GoSlice.view newMeshAdapters
      = take i (GoSlice.view meshAdapters)
        ++ drop (S i) (GoSlice.view meshAdapters).
Proof.
  intros Hwf Hi Ha Hfirst.
  pose proof (GoSlice.view_length _ meshAdapters Hwf) as Hlen.
  pose proof (lookup_lt_Some _ _ _ Hi) as Hlt. rewrite Hlen in Hlt.
  unfold deleteAdapter.
  rewrite (deleteAdapter_scan_first _ _ i a Hi Ha Hfirst).
  destruct (Z.ltb_spec (Z.of_nat i) 0) as [?|_]; [lia|].
  unfold ret. eexists. split; [reflexivity|].
  destruct (Z.eqb_spec (Z.of_nat i) 0) as [H0|H0].
  { assert (i = 0%nat) as -> by lia. split.
    - apply GoSlice.reslice_wf; [done|lia..].
    - by apply GoSlice.view_cut_first. }
  destruct (Z.eqb_spec (Z.of_nat i) (Z.of_nat (GoSlice.len meshAdapters) - 1))
    as [Hl|Hl].
  { replace (Z.to_nat (Z.of_nat (GoSlice.len meshAdapters) - 1)) with i
      by lia.
    split.
    - apply GoSlice.reslice_wf; [done|lia..].
    - apply GoSlice.view_cut_last; [done|lia]. }
  rewrite Nat2Z.id.
  replace (Z.to_nat (Z.of_nat i + 1)) with (S i) by lia. split.
  - apply GoSlice.append_wf, GoSlice.reslice_wf; [done|lia..].
  - by apply GoSlice.view_cut_middle.
Qed.

(** In a list with one adapter per host, the host of an entry is the host
    of no earlier entry and of no other entry. *)
Lemma uniqueHosts_first (l : list Adapter) (i : nat) (a : Adapter) :
  uniqueHosts l → l !! i = Some a →
  ∀ j b, l !! j = Some b → Host b = Host a → j = i.
Proof.
  intros Huniq Hi j b Hj Hb. apply (NoDup_lookup _ _ _ (Host a) Huniq).
  - rewrite list_lookup_fmap, Hj. simpl. congruence.
  - by rewrite list_lookup_fmap, Hi.
Qed.

Lemma uniqueHosts_delete (l : list Adapter) (i : nat) (a : Adapter) :
  uniqueHosts l → l !! i = Some a →
  hostCount (Host a) (take i l ++ drop (S i) l) = 0%nat.
Proof.
  intros Huniq Hi. apply hostCount_fresh. intros b Hb Hhost.
  apply elem_of_app in Hb as [Hb|Hb].
  - apply elem_of_take in Hb as (j & Hj & Hlt).
    pose proof (uniqueHosts_first _ _ _ Huniq Hi j b Hj Hhost). lia.
  - apply list_elem_of_lookup in Hb as (j & Hj). rewrite lookup_drop in Hj.
    pose proof (uniqueHosts_first _ _ _ Huniq Hi _ b Hj Hhost). lia.
Qed.

(** *** Dispatch *)

Lemma MeshOpsHandler_token_local (req : Request) (provider : Provider)
    (h : History) :
  Forall (λ e, isRemoteCall e = false) (MeshOpsHandler_token req provider h).2.
Proof.
  unfold MeshOpsHandler_token.
  destruct (GetProviderType provider); [by constructor|].
  destruct (GetProviderToken provider req); by repeat constructor.
Qed.

Lemma MeshOpsHandler_scan_none (adapterLoc : string) (l : list Adapter) :
  (∀ ad, ad ∈ l → adapterLoc ≠ hostPort ad) →
  MeshOpsHandler_scan adapterLoc l 0 (-1) = -1.
Proof.
  intros Hno. unfold MeshOpsHandler_scan. apply rangeIndex_none.
  intros ad Had. apply bool_decide_eq_false. by apply Hno.
Qed.

Lemma MeshOpsHandler_scan_cases (adapterLoc : string) (l : list Adapter) :
  (MeshOpsHandler_scan adapterLoc l 0 (-1) = -1
   ∧ ∀ ad, ad ∈ l → adapterLoc ≠ hostPort ad)
  ∨ ∃ n target, MeshOpsHandler_scan adapterLoc l 0 (-1) = Z.of_nat n
                ∧ l !! n = Some target ∧ adapterLoc = hostPort target.
Proof.
  unfold MeshOpsHandler_scan.
  destruct (rangeIndex_cases
              (λ ad, bool_decide (adapterLoc = hostPort ad)) l 0 (-1))
    as [[Heq Hno]|(n & a & Heq & Hn & Ha & _)].
  - left. split; [done|]. intros ad Had.
    apply (bool_decide_eq_false_1 (adapterLoc = hostPort ad)). by apply Hno.
  - right. exists n, a. split; [lia|]. split; [done|].
    by apply bool_decide_eq_true in Ha.
Qed.

Lemma AdapterPingHandler_scan_none (adapterLoc : string) (l : list Adapter)
    (t : option Adapter) :
  (∀ ad, ad ∈ l → adapterLoc ≠ Host ad) →
  AdapterPingHandler_scan adapterLoc l t = t.
Proof.
  induction l as [|x l IH]; intros Hno; [done|].
  simpl. case_decide as Hx.
  - exfalso. apply (Hno x); [by left|done].
  - apply IH. intros ad Had. apply Hno. by right.
Qed.

Lemma AdapterPingHandler_scan_found (adapterLoc : string) (l : list Adapter)
    (t : option Adapter) :
  (∃ ad, ad ∈ l ∧ adapterLoc = Host ad) →
  ∃ target, AdapterPingHandler_scan adapterLoc l t = Some target
            ∧ target ∈ l ∧ adapterLoc = Host target.
Proof.
  induction l as [|x l IH]; intros (ad & Hin & Had).
  - by apply elem_of_nil in Hin.
  - simpl. case_decide as Hx.
    + exists x. split; [done|]. split; [by left|done].
    + apply elem_of_cons in Hin as [->|Hin]; [done|].
      destruct IH as (target & Hscan & Ht & Hhost); [by eauto|].
      exists target. split; [done|]. split; [by right|done].
Qed.

(** The credential loop succeeds exactly when every context generates its
    blob, and then yields the blobs in the order of the contexts. *)
Lemma MeshOpsHandler_configs_ok (cs : list K8sContext)
    (configs out : list string) :
  MeshOpsHandler_configs cs configs = Ok out →
  ∃ new, out = configs ++ new
         ∧ Forall2 (λ c kc, GenerateKubeConfig c = Ok kc) cs new.
Proof.
  revert configs. induction cs as [|c cs IH]; intros configs; simpl.
  - intros [= <-]. exists []. by rewrite app_nil_r.
  - destruct (GenerateKubeConfig c) as [kc|] eqn:Hc; [|done].
    intros Hrun. destruct (IH _ Hrun) as (new & -> & Hall).
    exists (kc :: new). rewrite <- app_assoc. split; [done|].
    by constructor.
Qed.

(** ... and fails with the error of the first context whose generation
    fails, whatever follows it. *)
Lemma MeshOpsHandler_configs_first_error (good rest : list K8sContext)
    (c : K8sContext) (e : error) (configs : list string) :
  Forall (λ g, ∃ kc, GenerateKubeConfig g = Ok kc) good →
  GenerateKubeConfig c = Err e →
  MeshOpsHandler_configs (good ++ c :: rest) configs = Err e.
Proof.
  intros Hgood Hc. revert configs.
  induction Hgood as [|g good (kc & Hg) _ IH]; intros configs; simpl.
  - by rewrite Hc.
  - rewrite Hg. apply IH.
Qed.

Lemma no_remote_call_snoc (tok : list Event) (e : Event) :
  Forall (λ e, isRemoteCall e = false) tok →
  isRemoteCall e = false →
  Forall (λ e, isRemoteCall e = false) (tok ++ [e]).
Proof. intros Htok He. apply Forall_app. split; [done|by constructor]. Qed.

(** Where the dispatch stops before the credentials are complete. *)
Lemma MeshOpsHandler_unresolved (req : Request) (prefObj : Preference)
    (user : User) (provider : Provider) (h : History) :
  (∀ ad, ad ∈ GoSlice.view (MeshAdapters prefObj) →
         FormValue req "adapter" ≠ hostPort ad) →
  (MeshOpsHandler req prefObj user provider h).2
  = (MeshOpsHandler_token req provider h).2
    ++ [EvHttpError (ErrorText ErrValidAdapter) StatusBadRequest].
Proof.
  intros Hno. unfold MeshOpsHandler. unfold bind at 1.
  destruct (MeshOpsHandler_token req provider h) as [[] tok].
  by rewrite (MeshOpsHandler_scan_none _ _ Hno).
Qed.

Lemma MeshOpsHandler_no_contexts (req : Request) (prefObj : Preference)
    (user : User) (provider : Provider) (h : History) :
  (∃ ad, ad ∈ GoSlice.view (MeshAdapters prefObj)
         ∧ FormValue req "adapter" = hostPort ad) →
  KubeClusters req = None ∨ KubeClusters req = Some [] →
  (MeshOpsHandler req prefObj user provider h).2
  = (MeshOpsHandler_token req provider h).2
    ++ [EvHttpError (ErrorText ErrInvalidK8SConfig) StatusBadRequest].
Proof.
  intros (ad & Hin & Had) Hk. unfold MeshOpsHandler. unfold bind at 1.
  destruct (MeshOpsHandler_token req provider h) as [[] tok].
  destruct (MeshOpsHandler_scan_cases (FormValue req "adapter")
              (GoSlice.view (MeshAdapters prefObj)))
    as [[_ Hno]|(n & target & -> & _ & _)].
  { by destruct (Hno ad Hin). }
  destruct (Z.ltb_spec (Z.of_nat n) 0) as [?|_]; [lia|].
  by destruct Hk as [-> | ->].
Qed.

Lemma MeshOpsHandler_generation_error (req : Request) (prefObj : Preference)
    (user : User) (provider : Provider) (h : History)
    (cs : list K8sContext) (e : error) :
  (∃ ad, ad ∈ GoSlice.view (MeshAdapters prefObj)
         ∧ FormValue req "adapter" = hostPort ad) →
  KubeClusters req = Some cs →
  MeshOpsHandler_configs cs [] = Err e →
  (MeshOpsHandler req prefObj user provider h).2
  = (MeshOpsHandler_token req provider h).2
    ++ [EvHttpError (ErrorText e) StatusInternalServerError].
Proof.
  intros (ad & Hin & Had) Hk He. unfold MeshOpsHandler. unfold bind at 1.
  destruct (MeshOpsHandler_token req provider h) as [[] tok].
  destruct (MeshOpsHandler_scan_cases (FormValue req "adapter")
              (GoSlice.view (MeshAdapters prefObj)))
    as [[_ Hno]|(n & target & -> & _ & _)].
  { by destruct (Hno ad Hin). }
  destruct (Z.ltb_spec (Z.of_nat n) 0) as [?|_]; [lia|].
  rewrite Hk. destruct cs as [|c cs]; [done|].
  change (negb true || (length (c :: cs) =? 0)%nat) with false.
  cbv iota. by rewrite He.
Qed.

Lemma remote_call_absent (tok rest : list Event) :
  Forall (λ e, isRemoteCall e = false) tok →
  Forall (λ e, isRemoteCall e = false) rest →
  ¬ Exists (λ e, isRemoteCall e = true) (tok ++ rest).
Proof.
  intros Htok Hrest Hex. apply Exists_exists in Hex as (e & Hin & He).
  assert (isRemoteCall e = false); [|congruence].
  apply elem_of_app in Hin as [Hin|Hin];
    [rewrite Forall_forall in Htok|rewrite Forall_forall in Hrest]; eauto.
Qed.

(** A dispatch that stops with an answer written locally. *)
Ltac local_answer Hin Hrem :=
  simpl in Hin; apply elem_of_app in Hin as [?|Hin]; [done|];
  apply list_elem_of_singleton in Hin; subst; discriminate Hrem.

Ltac no_remote_call Hex :=
  apply remote_call_absent in Hex; [done..|by repeat constructor].

(** A remote call appears in the log of a dispatch only after the
    credential loop has run to completion over a non-empty context list. *)
Lemma MeshOpsHandler_remote_inv (req : Request) (prefObj : Preference)
    (user : User) (provider : Provider) (h : History) :
  Exists (λ e, isRemoteCall e = true)
    (MeshOpsHandler req prefObj user provider h).2 →
  ∃ cs configs,
    KubeClusters req = Some cs ∧ cs ≠ []
    ∧ MeshOpsHandler_configs cs [] = Ok configs
    ∧ Forall2 (λ c kc, GenerateKubeConfig c = Ok kc) cs configs.
Proof.
  intros Hex. unfold MeshOpsHandler in Hex. unfold bind at 1 in Hex.
  pose proof (MeshOpsHandler_token_local req provider h) as Htok.
  destruct (MeshOpsHandler_token req provider h) as [[] tok].
  simpl in Htok.
  destruct (_ <? 0).
  { no_remote_call Hex. }
  destruct (KubeClusters req) as [cs|].
  2:{ no_remote_call Hex. }
  destruct cs as [|c cs].
  { no_remote_call Hex. }
  change (negb true || (length (c :: cs) =? 0)%nat) with false in Hex.
  cbv iota in Hex.
  destruct (MeshOpsHandler_configs (c :: cs) []) as [configs|e] eqn:Hcfg.
  2:{ no_remote_call Hex. }
  exists (c :: cs), configs. split; [done|]. split; [done|].
  split; [done|].
  by destruct (MeshOpsHandler_configs_ok _ _ _ Hcfg) as (new & -> & Hall).
Qed.

(** Every remote call in the log of a dispatch goes to the [Host] of an
    entry whose host:port is the supplied address: it is the creation of
    the client, or the one [ApplyOperation], whose request is built from the
    form values. *)
Lemma MeshOpsHandler_remote_event_inv (req : Request) (prefObj : Preference)
    (user : User) (provider : Provider) (h : History) (e : Event) :
  e ∈ (MeshOpsHandler req prefObj user provider h).2 →
  isRemoteCall e = true →
  ∃ target,
    target ∈ GoSlice.view (MeshAdapters prefObj)
    ∧ FormValue req "adapter" = hostPort target
    ∧ ((∃ err, e = EvCreateClient (Host target) err)
       ∨ ∃ operationID configs err,
           e = EvApplyOperation (Host target)
                 {| OperationId := operationID;
                    OpName := FormValue req "query";
                    Username := UserID user;
                    Namespace :=
                      if decide (FormValue req "namespace" = "")
                      then "default" else FormValue req "namespace";
                    CustomBody := FormValue req "customBody";
                    DeleteOp := bool_decide (FormValue req "deleteOp" ≠ "");
                    KubeConfigs := configs |} err).
Proof.
  intros Hin Hrem. unfold MeshOpsHandler in Hin. unfold bind at 1 in Hin.
  pose proof (MeshOpsHandler_token_local req provider h) as Htok.
  destruct (MeshOpsHandler_token req provider h) as [[] tok].
  simpl in Htok.
  assert (Hnot : e ∉ tok).
  { intros Hc. rewrite Forall_forall in Htok. specialize (Htok _ Hc).
    congruence. }
  destruct (MeshOpsHandler_scan_cases (FormValue req "adapter")
              (GoSlice.view (MeshAdapters prefObj)))
    as [[Hscan _]|(n & target & Hscan & Hn & Hkey)]; rewrite Hscan in Hin.
  { local_answer Hin Hrem. }
  destruct (Z.ltb_spec (Z.of_nat n) 0) as [?|_]; [lia|].
  rewrite Nat2Z.id in Hin. unfold GoSlice.index in Hin. rewrite Hn in Hin.
  destruct (KubeClusters req) as [cs|]; [|local_answer Hin Hrem].
  destruct cs as [|c cs]; [local_answer Hin Hrem|].
  change (negb true || (length (c :: cs) =? 0)%nat) with false in Hin.
  cbv iota in Hin.
  destruct (MeshOpsHandler_configs (c :: cs) []) as [configs|err];
    [|local_answer Hin Hrem].
  exists target. split; [by eapply list_elem_of_lookup_2|]. split; [done|].
  unfold bind, CreateClient, NewV4, ApplyOperation, call, emit, httpError,
    ret in Hin.
  cbv beta zeta in Hin.
  destruct (env_CreateClient _ _); [|destruct (env_NewV4 _) as [id|]];
    [| destruct (env_ApplyOperation _ _ _) |];
    simpl in Hin; apply elem_of_app in Hin as [?|Hin]; try done;
    apply list_elem_of_In in Hin; simpl in Hin;
    repeat (destruct Hin as [<-|Hin]; [(by eauto 6) || discriminate Hrem|]);
    contradiction.
Qed.

(** The ping path: an address that is the [Host] of no entry is refused
    before any connection is attempted. *)
Lemma AdapterPingHandler_unresolved (req : Request) (prefObj : Preference)
    (h : History) :
  (∀ ad, ad ∈ GoSlice.view (MeshAdapters prefObj) →
         QueryGet req "adapter" ≠ Host ad) →
  AdapterPingHandler req prefObj h
  = (tt, [EvHttpError (ErrorText ErrValidAdapter) StatusBadRequest]).
Proof.
  intros Hno. unfold AdapterPingHandler.
  by rewrite (AdapterPingHandler_scan_none _ _ None Hno).
Qed.

(** ... and an address that is the [Host] of an entry is dialled on the
    port of the first such entry. *)
Lemma AdapterPingHandler_resolved (req : Request) (prefObj : Preference)
    (h : History) :
  (∃ ad, ad ∈ GoSlice.view (MeshAdapters prefObj)
         ∧ QueryGet req "adapter" = Host ad) →
  ∃ target connected rest,
    target ∈ GoSlice.view (MeshAdapters prefObj)
    ∧ QueryGet req "adapter" = Host target
    ∧ (AdapterPingHandler req prefObj h).2
      = EvDial ("localhost:" +:+ fmtD (Port target)) connected :: rest.
Proof.
  intros Hex. unfold AdapterPingHandler.
  destruct (AdapterPingHandler_scan_found _ _ None Hex)
    as (target & -> & Hin & Hhost).
  exists target. unfold bind, checkAdapterPingability, bind, Dial, call.
  destruct (env_Dial h _); eexists _, _; (split; [done|]);
    (split; [done|]); reflexivity.
Qed.

(** C5.  The dispatch path resolves the adapter by equality of the supplied
    address with [Host ++ ":" ++ Port], the ping path by equality with
    [Host] alone, and a client is only ever created for the [Host] of an
    entry whose host:port is the supplied address.  When no entry of the
    list has the supplied address as its host:port, the dispatch answers 400
    with [ErrValidAdapter], and its log holds no client creation and no
    [ApplyOperation]. *)
Theorem MeshOpsHandler_unknown_adapter :
  (∀ adapterLoc l,
     MeshOpsHandler_scan adapterLoc l 0 (-1) < 0
     ↔ ∀ ad, ad ∈ l → adapterLoc ≠ Host ad +:+ ":" +:+ fmtS (Port ad))
  ∧ (∀ adapterLoc l,
       AdapterPingHandler_scan adapterLoc l None = None
       ↔ ∀ ad, ad ∈ l → adapterLoc ≠ Host ad)
  ∧ (∀ req prefObj user provider h host err,
       EvCreateClient host err
         ∈ (MeshOpsHandler req prefObj user provider h).2 →
       ∃ target, target ∈ GoSlice.view (MeshAdapters prefObj)
                 ∧ FormValue req "adapter"
                   = Host target +:+ ":" +:+ fmtS (Port target)
                 ∧ host = Host target)
  ∧ (∀ req prefObj user provider h,
       (∀ ad, ad ∈ GoSlice.view (MeshAdapters prefObj) →
              FormValue req "adapter" ≠ Host ad +:+ ":" +:+ fmtS (Port ad)) →
       (MeshOpsHandler req prefObj user provider h).2
       = (MeshOpsHandler_token req provider h).2
         ++ [EvHttpError (ErrorText ErrValidAdapter) StatusBadRequest]
       ∧ Forall (λ e, isRemoteCall e = false)
           (MeshOpsHandler req prefObj user provider h).2).
Proof.
  split; [|split; [|split]].
  - intros adapterLoc l. split.
    + intros Hneg.
      destruct (MeshOpsHandler_scan_cases adapterLoc l)
        as [[_ Hno]|(n & t & Heq & _)]; [done|lia].
    + intros Hno. rewrite MeshOpsHandler_scan_none; [lia|done].
  - intros adapterLoc l. split.
    + intros Hnone ad Had Hhost.
      destruct (AdapterPingHandler_scan_found adapterLoc l None)
        as (t & Ht & _); [by eauto|congruence].
    + apply AdapterPingHandler_scan_none.
  - intros req prefObj user provider h host err Hin.
    destruct (MeshOpsHandler_remote_event_inv _ _ _ _ _ _ Hin eq_refl)
      as (target & Ht & Hkey & [(cerr & Hev)|(id & configs & aerr & Hev)]);
      [|done].
    exists target. split; [done|]. split; [done|]. by injection Hev.
  - intros req prefObj user provider h Hno.
    rewrite (MeshOpsHandler_unresolved _ _ _ _ _ Hno). split; [done|].
    apply no_remote_call_snoc; [apply MeshOpsHandler_token_local|done].
Qed.

(** C6.  A dispatch reaches a remote call only after every cluster context
    has produced its credential blob.  Once the adapter is resolved: with no
    cluster contexts the dispatch answers 400 with [ErrInvalidK8SConfig];
    when a context fails to generate its blob the dispatch answers 500 with
    the error of the first such context; in both cases the log holds no
    client creation and no [ApplyOperation]. *)
Theorem MeshOpsHandler_credentials_all_or_nothing (req : Request)
    (prefObj : Preference) (user : User) (provider : Provider)
    (h : History) :
  let evs := (MeshOpsHandler req prefObj user provider h).2 in
  let tok := (MeshOpsHandler_token req provider h).2 in
  let resolved :=
    ∃ ad, ad ∈ GoSlice.view (MeshAdapters prefObj)
          ∧ FormValue req "adapter" = hostPort ad in
  (Exists (λ e, isRemoteCall e = true) evs →
   ∃ cs configs,
     KubeClusters req = Some cs ∧ cs ≠ []
     ∧ MeshOpsHandler_configs cs [] = Ok configs
     ∧ Forall2 (λ c kc, GenerateKubeConfig c = Ok kc) cs configs)
  ∧ (resolved →
     KubeClusters req = None ∨ KubeClusters req = Some [] →
     evs = tok ++ [EvHttpError (ErrorText ErrInvalidK8SConfig)
                     StatusBadRequest]
     ∧ Forall (λ e, isRemoteCall e = false) evs)
  ∧ (resolved →
     ∀ good c rest e,
       KubeClusters req = Some (good ++ c :: rest) →
       Forall (λ g, ∃ kc, GenerateKubeConfig g = Ok kc) good →
       GenerateKubeConfig c = Err e →
       evs = tok ++ [EvHttpError (ErrorText e) StatusInternalServerError]
       ∧ Forall (λ e, isRemoteCall e = false) evs).
Proof.
  intros evs tok resolved. subst evs tok resolved.
  split; [apply MeshOpsHandler_remote_inv|]. split.
  - intros Hres Hk. rewrite (MeshOpsHandler_no_contexts _ _ _ _ _ Hres Hk).
    split; [done|].
    apply no_remote_call_snoc; [apply MeshOpsHandler_token_local|done].
  - intros Hres good c rest e Hk Hgood Hc.
    rewrite (MeshOpsHandler_generation_error _ _ _ _ _ _ e Hres Hk).
    + split; [done|].
      apply no_remote_call_snoc; [apply MeshOpsHandler_token_local|done].
    + by apply MeshOpsHandler_configs_first_error.
Qed.

(** C10.  In every [ApplyOperation] request a dispatch sends, the
    [DeleteOp] flag is true exactly when the [deleteOp] form value is not
    the empty string. *)
Theorem MeshOpsHandler_delete_flag (req : Request) (prefObj : Preference)
    (user : User) (provider : Provider) (h : History)
    (host : string) (r : ApplyRuleRequest) (err : option error) :
  EvApplyOperation host r err
    ∈ (MeshOpsHandler req prefObj user provider h).2 →
  (DeleteOp r = true ↔ FormValue req "deleteOp" ≠ "")
  ∧ (DeleteOp r = false ↔ FormValue req "deleteOp" = "").
Proof.
  intros Hin.
  destruct (MeshOpsHandler_remote_event_inv _ _ _ _ _ _ Hin eq_refl)
    as (target & _ & _ & [(cerr & Hev)|(id & configs & aerr & Hev)]);
    [done|].
  injection Hev as _ -> _. simpl. split.
  - apply bool_decide_eq_true.
  - rewrite bool_decide_eq_false. split; [|by intros ? ?].
    intros Hnn. by destruct (decide (FormValue req "deleteOp" = "")).
Qed.

(* --------------------------------------------------------------------- *)
(** *** The registry under sequences of operations                        *)
(* --------------------------------------------------------------------- *)

(** What [deleteAdapter] builds for a host found at index [i], branch by
    branch. *)
Definition cutAt (s : GoSlice.slice Adapter) (i : nat)
  : GoSlice.slice Adapter :=
  if (i =? 0)%nat then GoSlice.reslice s 1 (GoSlice.len s)
  else if (i =? GoSlice.len s - 1)%nat then
    GoSlice.reslice s 0 (GoSlice.len s - 1)
  else
    GoSlice.append (GoSlice.reslice s 0 i)
      (GoSlice.view (GoSlice.reslice s (S i) (GoSlice.len s))).

(** The adapter a successful registration builds. *)
Definition newAdapter (url : string) (ops : list SupportedOperation)
    (info : ComponentInfoResponse) (port : PortT) : Adapter :=
  {| Host := url; Name := ciName info; Version := ciVersion info;
     GitCommitSHA := ciGitSha info; Ops := ops; Port := port;
     Available := true |}.

Definition isOpen (e : Event) : bool :=
  match e with EvCreateClient _ None => true | _ => false end.

Definition isClose (e : Event) : bool :=
  match e with EvClose _ => true | _ => false end.

Definition isHttpError (e : Event) : bool :=
  match e with EvHttpError _ _ => true | _ => false end.

Definition isApply (e : Event) : bool :=
  match e with EvApplyOperation _ _ _ => true | _ => false end.

Definition isResponse (e : Event) : bool :=
  match e with EvHttpError _ _ | EvWrite _ => true | _ => false end.

Definition isDial (e : Event) : bool :=
  match e with EvDial _ _ => true | _ => false end.

Definition count (p : Event → bool) (evs : list Event) : nat :=
  length (List.filter p evs).

Lemma addAdapter_scan_false (l : list Adapter) (url : string) :
  addAdapter_scan l url false = false → ∀ a, a ∈ l → Host a ≠ url.
Proof.
  induction l as [|x l IH]; simpl; intros Hscan a Ha.
  - by apply elem_of_nil in Ha.
  - case_decide as Hx; [done|].
    apply elem_of_cons in Ha as [->|Ha]; [done|by apply IH].
Qed.

Lemma hostCount_zero (host : string) (l : list Adapter) :
  hostCount host l = 0%nat → ∀ a, a ∈ l → Host a ≠ host.
Proof.
  unfold hostCount. induction l as [|x l IH]; intros Hz a Ha.
  - by apply elem_of_nil in Ha.
  - rewrite filter_cons in Hz. case_decide as Hx; [done|].
    apply elem_of_cons in Ha as [->|Ha]; [done|by apply IH].
Qed.

Lemma hostCount_delete (host : string) (l : list Adapter) (i : nat)
    (a : Adapter) :
  l !! i = Some a →
  hostCount host l
  = (hostCount host (delete i l)
     + if decide (Host a = host) then 1 else 0)%nat.
Proof.
  intros Hi. rewrite delete_take_drop.
  rewrite <- (take_drop_middle l i a Hi) at 1.
  rewrite !hostCount_app. unfold hostCount at 2.
  rewrite filter_cons. case_decide; simpl; fold (hostCount host (drop (S i) l));
    lia.
Qed.

Lemma deleteAdapter_scan_cases (adapterLoc : string) (l : list Adapter) :
  (deleteAdapter_scan adapterLoc l 0 (-1) = -1
   ∧ ∀ ad, ad ∈ l → Host ad ≠ adapterLoc)
  ∨ ∃ n a, deleteAdapter_scan adapterLoc l 0 (-1) = Z.of_nat n
           ∧ l !! n = Some a ∧ Host a = adapterLoc
           ∧ ∀ j b, (j < n)%nat → l !! j = Some b → Host b ≠ adapterLoc.
Proof.
  unfold deleteAdapter_scan.
  destruct (rangeIndex_cases
              (λ ad, bool_decide (adapterLoc = Host ad)) l 0 (-1))
    as [[Heq Hno]|(n & a & Heq & Hn & Ha & Hfirst)].
  - left. split; [done|]. intros ad Had Hhost.
    specialize (Hno ad Had). apply bool_decide_eq_false in Hno. by apply Hno.
  - right. exists n, a. split; [lia|]. split; [done|].
    apply bool_decide_eq_true in Ha. split; [done|].
    intros j b Hj Hb Hhost. specialize (Hfirst j b Hj Hb).
    apply bool_decide_eq_false in Hfirst. by apply Hfirst.
Qed.

(** The run of [deleteAdapter] when the scan stops at index [i]. *)
Lemma deleteAdapter_run (meshAdapters : GoSlice.slice Adapter)
    (req : Request) (h : History) (i : nat) :
  deleteAdapter_scan (QueryGet req "adapter") (GoSlice.view meshAdapters)
    0 (-1) = Z.of_nat i →
  (i < GoSlice.len meshAdapters)%nat →
  deleteAdapter meshAdapters req h = ((cutAt meshAdapters i, None), []).
Proof.
  intros Hscan Hlt. unfold deleteAdapter, cutAt. rewrite Hscan.
  destruct (Z.ltb_spec (Z.of_nat i) 0) as [?|_]; [lia|].
  unfold ret. do 2 f_equal. f_equal.
  destruct (Z.eqb_spec (Z.of_nat i) 0), (Nat.eqb_spec i 0); try lia; [done|].
  destruct (Z.eqb_spec (Z.of_nat i) (Z.of_nat (GoSlice.len meshAdapters) - 1)),
    (Nat.eqb_spec i (GoSlice.len meshAdapters - 1)); try lia.
  - by replace (Z.to_nat (Z.of_nat (GoSlice.len meshAdapters) - 1))
      with (GoSlice.len meshAdapters - 1)%nat by lia.
  - rewrite Nat2Z.id.
    by replace (Z.to_nat (Z.of_nat i + 1)) with (S i) by lia.
Qed.

Lemma deleteAdapter_missing (meshAdapters : GoSlice.slice Adapter)
    (req : Request) (h : History) :
  (∀ a, a ∈ GoSlice.view meshAdapters → Host a ≠ QueryGet req "adapter") →
  deleteAdapter meshAdapters req h
  = ((meshAdapters, Some ErrValidAdapter),
     [EvHttpError (ErrorText ErrValidAdapter) StatusBadRequest]).
Proof.
  intros Hno. unfold deleteAdapter.
  destruct (deleteAdapter_scan_cases (QueryGet req "adapter")
              (GoSlice.view meshAdapters))
    as [[-> _]|(n & a & _ & Hn & Ha & _)]; [done|].
  destruct (Hno a); [by eapply list_elem_of_lookup_2|done].
Qed.

Lemma cutAt_view (s : GoSlice.slice Adapter) (i : nat) :
  GoSlice.wf s → (i < GoSlice.len s)%nat →
  GoSlice.wf (cutAt s i)
  ∧ GoSlice.view (cutAt s i) = delete i (GoSlice.view s).
Proof.
  intros Hwf Hlt. rewrite delete_take_drop. unfold cutAt.
  destruct (Nat.eqb_spec i 0) as [->|H0].
  { split; [apply GoSlice.reslice_wf; done || lia|].
    apply GoSlice.view_cut_first; [done|lia]. }
  destruct (Nat.eqb_spec i (GoSlice.len s - 1)) as [->|Hl].
  { split; [apply GoSlice.reslice_wf; done || lia|].
    apply GoSlice.view_cut_last; [done|lia]. }
  split; [apply GoSlice.append_wf, GoSlice.reslice_wf; done || lia|].
  by apply GoSlice.view_cut_middle.
Qed.

(** Every outcome of [deleteAdapter]: the host is unknown and the slice
    comes back with the error, or the entry at the first matching index is
    cut out. *)
Lemma deleteAdapter_cases (meshAdapters : GoSlice.slice Adapter)
    (req : Request) (h : History) :
  GoSlice.wf meshAdapters →
  ((∀ a, a ∈ GoSlice.view meshAdapters → Host a ≠ QueryGet req "adapter")
   ∧ deleteAdapter meshAdapters req h
     = ((meshAdapters, Some ErrValidAdapter),
        [EvHttpError (ErrorText ErrValidAdapter) StatusBadRequest]))
  ∨ ∃ i a,
      GoSlice.view meshAdapters !! i = Some a
      ∧ Host a = QueryGet req "adapter"
      ∧ (∀ j b, (j < i)%nat → GoSlice.view meshAdapters !! j = Some b →
                Host b ≠ QueryGet req "adapter")
      ∧ deleteAdapter meshAdapters req h
        = ((cutAt meshAdapters i, None), []).
Proof.
  intros Hwf.
  destruct (deleteAdapter_scan_cases (QueryGet req "adapter")
              (GoSlice.view meshAdapters))
    as [[_ Hno]|(n & a & Hscan & Hn & Ha & Hfirst)].
  - left. split; [done|]. by apply deleteAdapter_missing.
  - right. exists n, a. repeat (split; [done|]).
    apply deleteAdapter_run; [done|].
    pose proof (lookup_lt_Some _ _ _ Hn) as Hlt.
    by rewrite (GoSlice.view_length _ _ Hwf) in Hlt.
Qed.


(** The exact run of a registration that succeeds for a new host. *)
Lemma addAdapter_success_log (meshAdapters s1 : GoSlice.slice Adapter)
    (url : string) (h : History) (evs : list Event) :
  (∀ a, a ∈ GoSlice.view meshAdapters → Host a ≠ url) →
  addAdapter meshAdapters url h = ((s1, None), evs) →
  ∃ ops info port,
    s1 = GoSlice.append meshAdapters [newAdapter url ops info port]
    ∧ evs = [EvCreateClient url None;
             EvSupportedOperations url (Ok ops);
             EvComponentInfo url (Ok info);
             EvGetNextAvailablePort port;
             EvCheckAdapterAvailability (newAdapter url ops info port);
             EvTrackerAddAdapter (newAdapter url ops info port);
             EvClose url].
Proof.
  intros Hfresh. unfold addAdapter.
  rewrite (addAdapter_scan_fresh _ _ false Hfresh).
  unfold bind, CreateClient, SupportedOperations, ComponentInfo,
    GetNextAvailablePort, call, emit, ret.
  destruct (env_CreateClient h url); [done|].
  destruct (env_SupportedOperations _ url) as [ops|]; [|done].
  destruct (env_ComponentInfo _ url) as [info|]; [|done].
  simpl. intros [= <- <-]. by eexists ops, info, _.
Qed.

(** X1.  A registration of a new host that succeeds leaves every existing
    entry where it was and adds one entry at the end: its host is the
    requested address, its name, version and commit come from
    [ComponentInfo], its operations from [SupportedOperations], its port
    from the allocator, and it is marked available.  The calls happen in
    that order, and the client is closed last. *)
Theorem addAdapter_appends_last (meshAdapters s1 : GoSlice.slice Adapter)
    (url : string) (h : History) (evs : list Event) :
  GoSlice.wf meshAdapters →
  (∀ a, a ∈ GoSlice.view meshAdapters → Host a ≠ url) →
  addAdapter meshAdapters url h = ((s1, None), evs) →
  ∃ ops info port,
    GoSlice.view s1
    = GoSlice.view meshAdapters ++ [newAdapter url ops info port]
    ∧ GoSlice.wf s1
    ∧ evs = [EvCreateClient url None;
             EvSupportedOperations url (Ok ops);
             EvComponentInfo url (Ok info);
             EvGetNextAvailablePort port;
             EvCheckAdapterAvailability (newAdapter url ops info port);
             EvTrackerAddAdapter (newAdapter url ops info port);
             EvClose url].
Proof.
  intros Hwf Hfresh Hrun.
  destruct (addAdapter_success_log _ _ _ _ _ Hfresh Hrun)
    as (ops & info & port & -> & ->).
  exists ops, info, port. split; [by apply GoSlice.view_append|].
  split; [by apply GoSlice.append_wf|done].
Qed.

(** X2.  Whatever the outcome of a registration (duplicate, failure or
    success), a well-formed slice with at most one adapter per host comes
    back as a well-formed slice with at most one adapter per host. *)
Theorem addAdapter_keeps_invariant (meshAdapters : GoSlice.slice Adapter)
    (url : string) (h : History) :
  GoSlice.wf meshAdapters →
  uniqueHosts (GoSlice.view meshAdapters) →
  GoSlice.wf (addAdapter meshAdapters url h).1.1
  ∧ uniqueHosts (GoSlice.view (addAdapter meshAdapters url h).1.1).
Proof.
  intros Hwf Huniq.
  destruct (addAdapter_scan (GoSlice.view meshAdapters) url false) eqn:Hscan.
  { unfold addAdapter. by rewrite Hscan. }
  pose proof (addAdapter_scan_false _ _ Hscan) as Hfresh.
  destruct (addAdapter meshAdapters url h) as [[s1 [err|]] evs] eqn:Hrun.
  - by destruct (addAdapter_error_inv _ _ _ _ _ _ Hrun) as [-> _].
  - destruct (addAdapter_success_log _ _ _ _ _ Hfresh Hrun)
      as (ops & info & port & -> & _).
    simpl. split; [by apply GoSlice.append_wf|].
    rewrite GoSlice.view_append by done.
    unfold uniqueHosts in *. rewrite fmap_app. apply NoDup_app.
    split; [done|]. split; [|apply NoDup_singleton].
    intros x Hx Hin. apply list_elem_of_singleton in Hin. simpl in Hin.
    apply list_elem_of_fmap in Hx as (a & -> & Ha).
    by apply (Hfresh a Ha).
Qed.

(** X3.  A removal that succeeds takes out exactly one entry: the slice is
    one shorter, the requested host has one entry fewer, and every other
    host has as many entries as before. *)
Theorem deleteAdapter_removes_one (meshAdapters s1 : GoSlice.slice Adapter)
    (req : Request) (h : History) (evs : list Event) :
  GoSlice.wf meshAdapters →
  deleteAdapter meshAdapters req h = ((s1, None), evs) →
  GoSlice.wf s1
  ∧ S (length (GoSlice.view s1)) = length (GoSlice.view meshAdapters)
  ∧ S (hostCount (QueryGet req "adapter") (GoSlice.view s1))
    = hostCount (QueryGet req "adapter") (GoSlice.view meshAdapters)
  ∧ ∀ host, host ≠ QueryGet req "adapter" →
            hostCount host (GoSlice.view s1)
            = hostCount host (GoSlice.view meshAdapters).
Proof.
  intros Hwf Hrun.
  destruct (deleteAdapter_cases meshAdapters req h Hwf)
    as [[_ Hmiss]|(i & a & Hi & Ha & _ & Hcut)]; [congruence|].
  rewrite Hcut in Hrun. injection Hrun as <- <-.
  pose proof (lookup_lt_Some _ _ _ Hi) as Hlt.
  rewrite (GoSlice.view_length _ _ Hwf) in Hlt.
  destruct (cutAt_view _ _ Hwf Hlt) as [Hwf1 ->].
  split; [done|]. split.
  { rewrite length_delete by eauto. apply lookup_lt_Some in Hi. lia. }
  split.
  - rewrite (hostCount_delete _ _ _ _ Hi). case_decide; [lia|done].
  - intros host Hne. rewrite (hostCount_delete host _ _ _ Hi).
    case_decide; [congruence|lia].
Qed.

(** X4.  Whatever the outcome of a removal (unknown host or success), a
    well-formed slice with at most one adapter per host comes back as a
    well-formed slice with at most one adapter per host. *)
Theorem deleteAdapter_keeps_invariant (meshAdapters : GoSlice.slice Adapter)
    (req : Request) (h : History) :
  GoSlice.wf meshAdapters →
  uniqueHosts (GoSlice.view meshAdapters) →
  GoSlice.wf (deleteAdapter meshAdapters req h).1.1
  ∧ uniqueHosts (GoSlice.view (deleteAdapter meshAdapters req h).1.1).
Proof.
  intros Hwf Huniq.
  destruct (deleteAdapter_cases meshAdapters req h Hwf)
    as [[_ ->]|(i & a & Hi & _ & _ & ->)]; [done|]. simpl.
  pose proof (lookup_lt_Some _ _ _ Hi) as Hlt.
  rewrite (GoSlice.view_length _ _ Hwf) in Hlt.
  destruct (cutAt_view _ _ Hwf Hlt) as [Hwf1 ->]. split; [done|].
  unfold uniqueHosts in *. rewrite list_fmap_delete.
  eapply sublist_NoDup; [done|apply sublist_delete].
Qed.

(** X5.  Registering a new host and then removing it gives back the list
    there was before the registration, entry for entry. *)
Theorem addAdapter_then_deleteAdapter
    (meshAdapters s1 : GoSlice.slice Adapter) (req : Request)
    (h h' : History) (evs : list Event) :
  GoSlice.wf meshAdapters →
  (∀ a, a ∈ GoSlice.view meshAdapters →
        Host a ≠ QueryGet req "adapter") →
  addAdapter meshAdapters (QueryGet req "adapter") h = ((s1, None), evs) →
  ∃ s2,
    deleteAdapter s1 req h' = ((s2, None), [])
    ∧ GoSlice.wf s2
    ∧ GoSlice.view s2 = GoSlice.view meshAdapters.
Proof.
  intros Hwf Hfresh Hadd.
  destruct (addAdapter_success_log _ _ _ _ _ Hfresh Hadd)
    as (ops & info & port & -> & _).
  set (a := newAdapter (QueryGet req "adapter") ops info port).
  pose proof (GoSlice.append_wf _ meshAdapters [a] Hwf) as Hwf1.
  pose proof (GoSlice.view_append _ meshAdapters [a] Hwf) as Hview.
  set (n := length (GoSlice.view meshAdapters)).
  assert (Hn : GoSlice.view (GoSlice.append meshAdapters [a]) !! n = Some a).
  { rewrite Hview. by apply list_lookup_middle. }
  assert (Hlt : (n < GoSlice.len (GoSlice.append meshAdapters [a]))%nat).
  { rewrite <- (GoSlice.view_length _ _ Hwf1). by eapply lookup_lt_Some. }
  exists (cutAt (GoSlice.append meshAdapters [a]) n). split.
  - apply deleteAdapter_run; [|done].
    apply (deleteAdapter_scan_first _ _ n a); [done..|].
    intros j b Hj Hb. rewrite Hview, lookup_app_l in Hb by done.
    apply Hfresh. by eapply list_elem_of_lookup_2.
  - destruct (cutAt_view _ _ Hwf1 Hlt) as [Hwf2 ->]. split; [done|].
    rewrite Hview, delete_take_drop. subst n.
    rewrite take_app_length, drop_app_ge by lia.
    replace (S (length (GoSlice.view meshAdapters))
             - length (GoSlice.view meshAdapters))%nat with 1%nat by lia.
    simpl. by rewrite app_nil_r.
Qed.

(** X6.  With at most one adapter per host, a host that has just been
    removed is unknown to the next removal: it answers 400 with
    [ErrValidAdapter] and returns the slice it was given. *)
Theorem deleteAdapter_twice (meshAdapters s1 : GoSlice.slice Adapter)
    (req : Request) (h h' : History) (evs : list Event) :
  GoSlice.wf meshAdapters →
  uniqueHosts (GoSlice.view meshAdapters) →
  deleteAdapter meshAdapters req h = ((s1, None), evs) →
  deleteAdapter s1 req h'
  = ((s1, Some ErrValidAdapter),
     [EvHttpError (ErrorText ErrValidAdapter) StatusBadRequest]).
Proof.
  intros Hwf Huniq Hrun.
  destruct (deleteAdapter_cases meshAdapters req h Hwf)
    as [[_ Hmiss]|(i & a & Hi & Ha & _ & Hcut)]; [congruence|].
  rewrite Hcut in Hrun. injection Hrun as <- <-.
  pose proof (lookup_lt_Some _ _ _ Hi) as Hlt.
  rewrite (GoSlice.view_length _ _ Hwf) in Hlt.
  apply deleteAdapter_missing.
  destruct (cutAt_view _ _ Hwf Hlt) as [_ ->].
  apply hostCount_zero. rewrite delete_take_drop, <- Ha.
  by apply uniqueHosts_delete.
Qed.

(** X7.  A removal never allocates.  For the first and the last entry the
    result is a narrower window on the untouched backing array.  For an
    entry in between, the tail is moved down inside the backing array the
    caller's slice still points to: read through the old offset and
    length, that array now shows the new list followed by a second copy of
    its last entry. *)
Theorem deleteAdapter_shares_array (meshAdapters : GoSlice.slice Adapter)
    (req : Request) (h : History) (i : nat) (a : Adapter) :
  GoSlice.wf meshAdapters →
  GoSlice.view meshAdapters !! i = Some a →
  Host a = QueryGet req "adapter" →
  (∀ j b, (j < i)%nat → GoSlice.view meshAdapters !! j = Some b →
          Host b ≠ QueryGet req "adapter") →
  let s1 := (deleteAdapter meshAdapters req h).1.1 in
  length (GoSlice.arr s1) = length (GoSlice.arr meshAdapters)
  ∧ (i = 0%nat ∨ S i = GoSlice.len meshAdapters →
     GoSlice.arr s1 = GoSlice.arr meshAdapters)
  ∧ (i ≠ 0%nat → S i ≠ GoSlice.len meshAdapters →
     GoSlice.view
       (GoSlice.Slice (GoSlice.arr s1) (GoSlice.off meshAdapters)
          (GoSlice.len meshAdapters))
     = delete i (GoSlice.view meshAdapters)
       ++ drop (GoSlice.len meshAdapters - 1) (GoSlice.view meshAdapters)).
Proof.
  intros Hwf Hi Ha Hfirst s1. subst s1.
  pose proof (GoSlice.view_length _ _ Hwf) as Hlen.
  pose proof (lookup_lt_Some _ _ _ Hi) as Hlt. rewrite Hlen in Hlt.
  rewrite (deleteAdapter_run _ req h i); [|by eapply deleteAdapter_scan_first|done].
  simpl. unfold cutAt.
  destruct (Nat.eqb_spec i 0) as [->|H0]; [by repeat split|].
  destruct (Nat.eqb_spec i (GoSlice.len meshAdapters - 1)) as [Hl|Hl].
  { split; [done|]. split; [done|]. intros _ Hne. lia. }
  set (v := GoSlice.view meshAdapters) in *.
  destruct (GoSlice.wf_split _ _ Hwf) as (pre & post & Harr & Hpre).
  fold v in Harr.
  assert (Hxs : GoSlice.view
                  (GoSlice.reslice meshAdapters (S i)
                     (GoSlice.len meshAdapters)) = drop (S i) v).
  { rewrite GoSlice.view_reslice by (done || lia).
    fold v. by rewrite <- Hlen, take_ge by lia. }
  rewrite Hxs. unfold GoSlice.append.
  assert (Hfit : (GoSlice.len (GoSlice.reslice meshAdapters 0 i)
                  + length (drop (S i) v)
                  ≤ GoSlice.cap (GoSlice.reslice meshAdapters 0 i))%nat).
  { unfold GoSlice.cap, GoSlice.wf in *. simpl. rewrite length_drop. lia. }
  rewrite decide_True by done. simpl.
  rewrite Nat.add_0_r, Nat.sub_0_r. unfold GoSlice.write.
  rewrite length_drop, Hlen.
  assert (Htake : take (GoSlice.off meshAdapters + i)
                    (GoSlice.arr meshAdapters) = pre ++ take i v).
  { rewrite Harr, <- Hpre, take_app_add'; [|done].
    f_equal. rewrite take_app_le; [done|lia]. }
  assert (Hdrop : drop (GoSlice.off meshAdapters + i
                        + (GoSlice.len meshAdapters - S i))
                    (GoSlice.arr meshAdapters)
                  = drop (GoSlice.len meshAdapters - 1) v ++ post).
  { replace (GoSlice.off meshAdapters + i
             + (GoSlice.len meshAdapters - S i))%nat
      with (length pre + (GoSlice.len meshAdapters - 1))%nat by lia.
    rewrite Harr, drop_app_add'; [|done]. rewrite drop_app_le; [done|lia]. }
  rewrite Htake, Hdrop. split.
  { rewrite !length_app, length_take, !length_drop.
    rewrite Harr, !length_app. lia. }
  split; [intros [?|?]; lia|]. intros _ _.
  unfold GoSlice.view. simpl. rewrite <- Hpre, <- !app_assoc.
  rewrite drop_app_length, delete_take_drop.
  rewrite !app_assoc. apply take_app_length'.
  rewrite !length_app, length_take, !length_drop. lia.
Qed.


(* --------------------------------------------------------------------- *)
(** *** The shapes of a dispatch                                          *)
(* --------------------------------------------------------------------- *)

(** The request a dispatch builds from the form values. *)
Definition applyRequest (req : Request) (user : User)
    (operationID : string) (configs : list string) : ApplyRuleRequest :=
  {| OperationId := operationID;
     OpName := FormValue req "query";
     Username := UserID user;
     Namespace := if decide (FormValue req "namespace" = "")
                  then "default" else FormValue req "namespace";
     CustomBody := FormValue req "customBody";
     DeleteOp := bool_decide (FormValue req "deleteOp" ≠ "");
     KubeConfigs := configs |}.

(** [target] is the first entry whose host:port is the address of the
    request. *)
Definition resolvesTo (req : Request) (prefObj : Preference)
    (target : Adapter) : Prop :=
  ∃ n, GoSlice.view (MeshAdapters prefObj) !! n = Some target
       ∧ FormValue req "adapter" = hostPort target
       ∧ ∀ j b, (j < n)%nat →
                GoSlice.view (MeshAdapters prefObj) !! j = Some b →
                FormValue req "adapter" ≠ hostPort b.

(** What a dispatch logs after the token block: one constructor per exit
    of the handler. *)
Inductive DispatchTail (req : Request) (prefObj : Preference)
    (user : User) : list Event → Prop :=
| dispatch_unknown :
    (∀ ad, ad ∈ GoSlice.view (MeshAdapters prefObj) →
           FormValue req "adapter" ≠ hostPort ad) →
    DispatchTail req prefObj user
      [EvHttpError (ErrorText ErrValidAdapter) StatusBadRequest]
| dispatch_no_contexts target :
    resolvesTo req prefObj target →
    KubeClusters req = None ∨ KubeClusters req = Some [] →
    DispatchTail req prefObj user
      [EvHttpError (ErrorText ErrInvalidK8SConfig) StatusBadRequest]
| dispatch_generation target cs e :
    resolvesTo req prefObj target →
    KubeClusters req = Some cs →
    MeshOpsHandler_configs cs [] = Err e →
    DispatchTail req prefObj user
      [EvHttpError (ErrorText e) StatusInternalServerError]
| dispatch_connection target cs configs e :
    resolvesTo req prefObj target →
    KubeClusters req = Some cs → cs ≠ [] →
    MeshOpsHandler_configs cs [] = Ok configs →
    DispatchTail req prefObj user
      [EvCreateClient (Host target) (Some e);
       EvHttpError (ErrorText e) StatusInternalServerError]
| dispatch_uuid target cs configs e :
    resolvesTo req prefObj target →
    KubeClusters req = Some cs → cs ≠ [] →
    MeshOpsHandler_configs cs [] = Ok configs →
    DispatchTail req prefObj user
      [EvCreateClient (Host target) None;
       EvNewV4 (Err e);
       EvHttpError (ErrorText e) StatusInternalServerError;
       EvClose (Host target)]
| dispatch_rejected target cs configs operationID e :
    resolvesTo req prefObj target →
    KubeClusters req = Some cs → cs ≠ [] →
    MeshOpsHandler_configs cs [] = Ok configs →
    DispatchTail req prefObj user
      [EvCreateClient (Host target) None;
       EvNewV4 (Ok operationID);
       EvApplyOperation (Host target)
         (applyRequest req user operationID configs) (Some e);
       EvHttpError (ErrorText e) StatusInternalServerError;
       EvClose (Host target)]
| dispatch_accepted target cs configs operationID :
    resolvesTo req prefObj target →
    KubeClusters req = Some cs → cs ≠ [] →
    MeshOpsHandler_configs cs [] = Ok configs →
    DispatchTail req prefObj user
      [EvCreateClient (Host target) None;
       EvNewV4 (Ok operationID);
       EvApplyOperation (Host target)
         (applyRequest req user operationID configs) None;
       EvClose (Host target)].

Lemma MeshOpsHandler_scan_first_cases (req : Request) (prefObj : Preference) :
  (MeshOpsHandler_scan (FormValue req "adapter")
     (GoSlice.view (MeshAdapters prefObj)) 0 (-1) = -1
   ∧ ∀ ad, ad ∈ GoSlice.view (MeshAdapters prefObj) →
           FormValue req "adapter" ≠ hostPort ad)
  ∨ ∃ n target,
      MeshOpsHandler_scan (FormValue req "adapter")
        (GoSlice.view (MeshAdapters prefObj)) 0 (-1) = Z.of_nat n
      ∧ GoSlice.view (MeshAdapters prefObj) !! n = Some target
      ∧ resolvesTo req prefObj target.
Proof.
  unfold MeshOpsHandler_scan.
  destruct (rangeIndex_cases
              (λ ad, bool_decide (FormValue req "adapter" = hostPort ad))
              (GoSlice.view (MeshAdapters prefObj)) 0 (-1))
    as [[Heq Hno]|(n & a & Heq & Hn & Ha & Hfirst)].
  - left. split; [done|]. intros ad Had.
    apply (bool_decide_eq_false_1 (FormValue req "adapter" = hostPort ad)).
    by apply Hno.
  - right. exists n, a. split; [lia|]. split; [done|].
    exists n. split; [done|]. split; [by apply bool_decide_eq_true in Ha|].
    intros j b Hj Hb.
    apply (bool_decide_eq_false_1 (FormValue req "adapter" = hostPort b)).
    by apply (Hfirst j b).
Qed.

(** The token block logs nothing, or the one setting of [opt-token]. *)
Lemma MeshOpsHandler_token_cases (req : Request) (provider : Provider)
    (h : History) :
  (MeshOpsHandler_token req provider h).2 = []
  ∨ ∃ token, GetProviderToken provider req = Ok token
             ∧ (MeshOpsHandler_token req provider h).2
               = [EvViperSetDefault "opt-token" token].
Proof.
  unfold MeshOpsHandler_token.
  destruct (GetProviderType provider); [by left|].
  destruct (GetProviderToken provider req) as [token|]; [|by left].
  right. by exists token.
Qed.

(** Every dispatch logs the token block followed by one of the seven
    tails. *)
Lemma MeshOpsHandler_shape (req : Request) (prefObj : Preference)
    (user : User) (provider : Provider) (h : History) :
  ∃ tail,
    (MeshOpsHandler req prefObj user provider h).2
    = (MeshOpsHandler_token req provider h).2 ++ tail
    ∧ DispatchTail req prefObj user tail.
Proof.
  unfold MeshOpsHandler. unfold bind at 1.
  destruct (MeshOpsHandler_token req provider h) as [[] tok].
  destruct (MeshOpsHandler_scan_first_cases req prefObj)
    as [[-> Hno]|(n & target & -> & Hn & Hres)].
  { eexists. split; [reflexivity|]. by constructor. }
  destruct (Z.ltb_spec (Z.of_nat n) 0) as [?|_]; [lia|].
  rewrite Nat2Z.id. unfold GoSlice.index. rewrite Hn.
  destruct (KubeClusters req) as [cs|] eqn:Hk.
  2:{ eexists. split; [reflexivity|]. econstructor 2; eauto. }
  destruct cs as [|c cs].
  { eexists. split; [reflexivity|]. econstructor 2; eauto. }
  change (negb true || (length (c :: cs) =? 0)%nat) with false. cbv iota.
  destruct (MeshOpsHandler_configs (c :: cs) []) as [configs|e] eqn:Hcfg.
  2:{ eexists. split; [reflexivity|]. by econstructor 3. }
  unfold bind, CreateClient, NewV4, ApplyOperation, call, emit, httpError,
    ret.
  cbv beta zeta.
  destruct (env_CreateClient _ _) as [e|].
  { eexists. split; [reflexivity|]. by econstructor 4. }
  destruct (env_NewV4 _) as [operationID|e].
  2:{ eexists. split; [reflexivity|]. by econstructor 5. }
  destruct (env_ApplyOperation _ _ _) as [e|].
  - eexists. split; [reflexivity|]. by econstructor 6.
  - eexists. split; [reflexivity|]. by econstructor 7.
Qed.


Lemma count_app (p : Event → bool) (l1 l2 : list Event) :
  count p (l1 ++ l2) = (count p l1 + count p l2)%nat.
Proof. unfold count. by rewrite List.filter_app, length_app. Qed.

Lemma count_token (p : Event → bool) (req : Request) (provider : Provider)
    (h : History) :
  (∀ key value, p (EvViperSetDefault key value) = false) →
  count p (MeshOpsHandler_token req provider h).2 = 0%nat.
Proof.
  intros Hp.
  destruct (MeshOpsHandler_token_cases req provider h)
    as [->|(token & _ & ->)]; [done|].
  unfold count. simpl. by rewrite Hp.
Qed.

Lemma resolvesTo_unique (req : Request) (prefObj : Preference)
    (t1 t2 : Adapter) :
  resolvesTo req prefObj t1 → resolvesTo req prefObj t2 → t1 = t2.
Proof.
  intros (n1 & H1 & K1 & F1) (n2 & H2 & K2 & F2).
  destruct (Nat.lt_total n1 n2) as [Hlt|[->|Hlt]].
  - by destruct (F2 n1 t1 Hlt H1).
  - congruence.
  - by destruct (F1 n2 t2 Hlt H2).
Qed.

(** Counting over a log whose shape is known. *)
Ltac tally :=
  cbn; repeat match goal with |- _ ∧ _ => split end;
  first [done | lia | intros ?; first [congruence | done]].

(** X8.  A registration never leaks its client: in every run the log holds
    as many [Close] as successful [CreateClient], at most one of each, and
    when a client was created its [Close] is the last thing that happens. *)
Theorem addAdapter_closes_client (meshAdapters : GoSlice.slice Adapter)
    (url : string) (h : History) :
  count isOpen (addAdapter meshAdapters url h).2
  = count isClose (addAdapter meshAdapters url h).2
  ∧ (count isOpen (addAdapter meshAdapters url h).2 ≤ 1)%nat
  ∧ (count isOpen (addAdapter meshAdapters url h).2 = 1%nat →
     last (addAdapter meshAdapters url h).2 = Some (EvClose url)).
Proof.
  unfold addAdapter.
  destruct (addAdapter_scan _ _ _); [tally|].
  unfold bind, CreateClient, SupportedOperations, ComponentInfo,
    GetNextAvailablePort, call, emit, ret.
  destruct (env_CreateClient h url); [tally|].
  destruct (env_SupportedOperations _ url); [|tally].
  destruct (env_ComponentInfo _ url); tally.
Qed.

(** X9.  A dispatch never leaks its client either: as many [Close] as
    successful [CreateClient], at most one of each, and the [Close] of the
    host the client was created for ends the log. *)
Theorem MeshOpsHandler_closes_client (req : Request) (prefObj : Preference)
    (user : User) (provider : Provider) (h : History) :
  count isOpen (MeshOpsHandler req prefObj user provider h).2
  = count isClose (MeshOpsHandler req prefObj user provider h).2
  ∧ (count isOpen (MeshOpsHandler req prefObj user provider h).2 ≤ 1)%nat
  ∧ (∀ host, EvCreateClient host None
               ∈ (MeshOpsHandler req prefObj user provider h).2 →
             last (MeshOpsHandler req prefObj user provider h).2
             = Some (EvClose host)).
Proof.
  destruct (MeshOpsHandler_shape req prefObj user provider h)
    as (tail & -> & Htail).
  rewrite !count_app, !(count_token _ req provider h) by done.
  assert (Hnot : ∀ host, EvCreateClient host None
                         ∉ (MeshOpsHandler_token req provider h).2).
  { intros host Hin.
    destruct (MeshOpsHandler_token_cases req provider h)
      as [Htok|(token & _ & Htok)]; rewrite Htok in Hin.
    - by apply elem_of_nil in Hin.
    - by apply list_elem_of_singleton in Hin. }
  assert (Htally :
    count isOpen tail = count isClose tail
    ∧ (count isOpen tail ≤ 1)%nat
    ∧ ∀ host, EvCreateClient host None ∈ tail →
              last tail = Some (EvClose host)).
  { inversion Htail; subst; cbn; (split; [done|]); (split; [lia|]);
      intros host Hin; apply list_elem_of_In in Hin; simpl in Hin;
      repeat (destruct Hin as [Hin|Hin]; try discriminate Hin);
      try contradiction; by injection Hin as <-. }
  destruct Htally as (Heq & Hle & Hlast).
  split; [done|]. split; [lia|]. intros host Hin.
  apply elem_of_app in Hin as [Hin|Hin]; [by destruct (Hnot host)|].
  by rewrite last_app, (Hlast host Hin).
Qed.


Lemma token_not_remote (req : Request) (provider : Provider) (h : History)
    (e : Event) :
  e ∈ (MeshOpsHandler_token req provider h).2 →
  ∃ token, e = EvViperSetDefault "opt-token" token.
Proof.
  intros Hin.
  destruct (MeshOpsHandler_token_cases req provider h)
    as [Htok|(token & _ & Htok)]; rewrite Htok in Hin.
  - by apply elem_of_nil in Hin.
  - apply list_elem_of_singleton in Hin. by exists token.
Qed.

(** Where an [ApplyOperation] in the log of a dispatch comes from. *)
Lemma MeshOpsHandler_apply_shape (req : Request) (prefObj : Preference)
    (user : User) (provider : Provider) (h : History)
    (host : string) (r : ApplyRuleRequest) (err : option error) :
  EvApplyOperation host r err
    ∈ (MeshOpsHandler req prefObj user provider h).2 →
  ∃ target cs configs operationID,
    resolvesTo req prefObj target
    ∧ KubeClusters req = Some cs
    ∧ MeshOpsHandler_configs cs [] = Ok configs
    ∧ host = Host target
    ∧ r = applyRequest req user operationID configs
    ∧ EvNewV4 (Ok operationID)
        ∈ (MeshOpsHandler req prefObj user provider h).2.
Proof.
  destruct (MeshOpsHandler_shape req prefObj user provider h)
    as (tail & -> & Htail).
  intros Hin. apply elem_of_app in Hin as [Hin|Hin].
  { by destruct (token_not_remote _ _ _ _ Hin). }
  inversion Htail; subst; apply list_elem_of_In in Hin; simpl in Hin;
    repeat (destruct Hin as [Hin|Hin]; try discriminate Hin);
    try contradiction; injection Hin as <- <- <-;
    eexists _, _, _, _; repeat (split; [done|]);
    apply elem_of_app; right; apply list_elem_of_In; simpl; auto.
Qed.

(** X10.  A dispatch writes at most one error answer and never a body, and
    sends at most one [ApplyOperation]; it writes no error answer exactly
    when that [ApplyOperation] was accepted. *)
Theorem MeshOpsHandler_one_answer (req : Request) (prefObj : Preference)
    (user : User) (provider : Provider) (h : History) :
  (count isHttpError (MeshOpsHandler req prefObj user provider h).2 ≤ 1)%nat
  ∧ (count isApply (MeshOpsHandler req prefObj user provider h).2 ≤ 1)%nat
  ∧ count isResponse (MeshOpsHandler req prefObj user provider h).2
    = count isHttpError (MeshOpsHandler req prefObj user provider h).2
  ∧ (count isHttpError (MeshOpsHandler req prefObj user provider h).2
     = 0%nat
     ↔ ∃ host r, EvApplyOperation host r None
                   ∈ (MeshOpsHandler req prefObj user provider h).2).
Proof.
  destruct (MeshOpsHandler_shape req prefObj user provider h)
    as (tail & Hlog & Htail).
  assert (Hiff : count isHttpError tail = 0%nat
                 ↔ ∃ host r, EvApplyOperation host r None ∈ tail).
  { inversion Htail; subst; cbn; split;
      try discriminate; try done;
      try (intros (host & r & Hin); apply list_elem_of_In in Hin;
           simpl in Hin;
           repeat (destruct Hin as [Hin|Hin]; try discriminate Hin);
           contradiction).
    intros _. eexists _, _. apply list_elem_of_In. simpl. auto. }
  rewrite Hlog, !count_app, !(count_token _ req provider h) by done.
  split; [inversion Htail; subst; cbn; lia|].
  split; [inversion Htail; subst; cbn; lia|].
  split; [inversion Htail; subst; by cbn|].
  simpl. rewrite Hiff. split; intros (host & r & Hin); exists host, r.
  - apply elem_of_app. by right.
  - apply elem_of_app in Hin as [Hin|Hin]; [|done].
    by destruct (token_not_remote _ _ _ _ Hin).
Qed.

(** X11.  The request of an [ApplyOperation] goes to the [Host] of the
    first entry whose host:port is the address of the form, carries as
    operation id the uuid generated earlier in the same dispatch and as
    user name the id of the caller, and passes the form's [query] and
    [customBody] through unchanged. *)
Theorem MeshOpsHandler_request_fields (req : Request) (prefObj : Preference)
    (user : User) (provider : Provider) (h : History)
    (host : string) (r : ApplyRuleRequest) (err : option error) :
  EvApplyOperation host r err
    ∈ (MeshOpsHandler req prefObj user provider h).2 →
  (∃ target, resolvesTo req prefObj target ∧ host = Host target)
  ∧ EvNewV4 (Ok (OperationId r))
      ∈ (MeshOpsHandler req prefObj user provider h).2
  ∧ Username r = UserID user
  ∧ OpName r = FormValue req "query"
  ∧ CustomBody r = FormValue req "customBody".
Proof.
  intros Hin.
  destruct (MeshOpsHandler_apply_shape _ _ _ _ _ _ _ _ Hin)
    as (target & cs & configs & id & Hres & _ & _ & -> & -> & Hid).
  split; [by exists target|]. by repeat split.
Qed.

(** X12.  The request of an [ApplyOperation] carries one credential blob
    per cluster context of the caller, in the order of the contexts, each
    the blob that context generates. *)
Theorem MeshOpsHandler_kubeconfigs_in_order (req : Request)
    (prefObj : Preference) (user : User) (provider : Provider)
    (h : History) (host : string) (r : ApplyRuleRequest)
    (err : option error) :
  EvApplyOperation host r err
    ∈ (MeshOpsHandler req prefObj user provider h).2 →
  ∃ cs, KubeClusters req = Some cs
        ∧ length (KubeConfigs r) = length cs
        ∧ Forall2 (λ c kc, GenerateKubeConfig c = Ok kc) cs (KubeConfigs r).
Proof.
  intros Hin.
  destruct (MeshOpsHandler_apply_shape _ _ _ _ _ _ _ _ Hin)
    as (target & cs & configs & id & _ & Hk & Hcfg & _ & -> & _).
  destruct (MeshOpsHandler_configs_ok _ _ _ Hcfg) as (new & -> & Hall).
  exists cs. split; [done|]. simpl. split; [|done].
  symmetry. by eapply Forall2_length.
Qed.

(** X13.  The namespace sent to the adapter is never empty: an empty
    [namespace] form value is replaced by [default], any other value is
    sent as it is. *)
Theorem MeshOpsHandler_namespace_default (req : Request)
    (prefObj : Preference) (user : User) (provider : Provider)
    (h : History) (host : string) (r : ApplyRuleRequest)
    (err : option error) :
  EvApplyOperation host r err
    ∈ (MeshOpsHandler req prefObj user provider h).2 →
  Namespace r ≠ ""
  ∧ (FormValue req "namespace" = "" → Namespace r = "default")
  ∧ (FormValue req "namespace" ≠ "" →
     Namespace r = FormValue req "namespace").
Proof.
  intros Hin.
  destruct (MeshOpsHandler_apply_shape _ _ _ _ _ _ _ _ Hin)
    as (target & cs & configs & id & _ & _ & _ & _ & -> & _).
  simpl. by case_decide.
Qed.

(** X14.  The index [meshAdapters[aID]] of a dispatch is always in range:
    no run of the handler panics. *)
Theorem MeshOpsHandler_never_panics (req : Request) (prefObj : Preference)
    (user : User) (provider : Provider) (h : History) :
  EvPanic ∉ (MeshOpsHandler req prefObj user provider h).2.
Proof.
  destruct (MeshOpsHandler_shape req prefObj user provider h)
    as (tail & -> & Htail).
  intros Hin. apply elem_of_app in Hin as [Hin|Hin].
  { by destruct (token_not_remote _ _ _ _ Hin). }
  inversion Htail; subst; apply list_elem_of_In in Hin; simpl in Hin;
    repeat (destruct Hin as [Hin|Hin]; try discriminate Hin);
    contradiction.
Qed.

(** X15.  When several entries have the address of the form as their
    host:port, every remote call of the dispatch goes to the [Host] of the
    first of them. *)
Theorem MeshOpsHandler_first_match (req : Request) (prefObj : Preference)
    (user : User) (provider : Provider) (h : History) (target : Adapter) :
  resolvesTo req prefObj target →
  (∀ host err, EvCreateClient host err
                 ∈ (MeshOpsHandler req prefObj user provider h).2 →
               host = Host target)
  ∧ (∀ host r err, EvApplyOperation host r err
                     ∈ (MeshOpsHandler req prefObj user provider h).2 →
                   host = Host target).
Proof.
  intros Hres. split.
  - destruct (MeshOpsHandler_shape req prefObj user provider h)
      as (tail & -> & Htail).
    intros host err Hin. apply elem_of_app in Hin as [Hin|Hin].
    { by destruct (token_not_remote _ _ _ _ Hin). }
    inversion Htail; subst; apply list_elem_of_In in Hin; simpl in Hin;
      repeat (destruct Hin as [Hin|Hin]; try discriminate Hin);
      try contradiction; injection Hin as <- _;
      f_equal; by eapply resolvesTo_unique.
  - intros host r err Hin.
    destruct (MeshOpsHandler_apply_shape _ _ _ _ _ _ _ _ Hin)
      as (t & cs & configs & id & Ht & _ & _ & -> & _).
    f_equal. by eapply resolvesTo_unique.
Qed.


(* --------------------------------------------------------------------- *)
(** *** Ping                                                              *)
(* --------------------------------------------------------------------- *)

Lemma AdapterPingHandler_scan_first (adapterLoc : string) (l : list Adapter)
    (t : option Adapter) (n : nat) (a : Adapter) :
  l !! n = Some a → adapterLoc = Host a →
  (∀ j b, (j < n)%nat → l !! j = Some b → adapterLoc ≠ Host b) →
  AdapterPingHandler_scan adapterLoc l t = Some a.
Proof.
  revert n. induction l as [|x l IH]; intros n Hn Ha Hfirst; [done|].
  destruct n as [|n]; simpl in *.
  - injection Hn as ->. by rewrite decide_True.
  - rewrite decide_False by (apply (Hfirst 0%nat x); [lia|done]).
    apply (IH n); [done..|].
    intros j b Hj Hb. apply (Hfirst (S j) b); [lia|done].
Qed.

(** X16.  A ping of a known host dials [localhost] on the port of the
    first entry with that host, never the host itself.  If the connection
    opens it is closed and the answer is the body [{}]; if not, the answer
    is 500. *)
Theorem AdapterPingHandler_dials_localhost (req : Request)
    (prefObj : Preference) (h : History) (n : nat) (target : Adapter) :
  GoSlice.view (MeshAdapters prefObj) !! n = Some target →
  QueryGet req "adapter" = Host target →
  (∀ j b, (j < n)%nat → GoSlice.view (MeshAdapters prefObj) !! j = Some b →
          QueryGet req "adapter" ≠ Host b) →
  (AdapterPingHandler req prefObj h).2
  = if env_Dial h ("localhost:" +:+ fmtD (Port target))
    then [EvDial ("localhost:" +:+ fmtD (Port target)) true;
          EvConnClose ("localhost:" +:+ fmtD (Port target));
          EvWrite "{}"]
    else [EvDial ("localhost:" +:+ fmtD (Port target)) false;
          EvHttpError (Text "Adapter ping failed")
            StatusInternalServerError].
Proof.
  intros Hn Hhost Hfirst. unfold AdapterPingHandler.
  rewrite (AdapterPingHandler_scan_first _ _ None n target Hn Hhost Hfirst).
  unfold bind, checkAdapterPingability, bind, Dial, call, emit, ret,
    httpError.
  by destruct (env_Dial h _).
Qed.

(** X17.  Every ping is answered exactly once, with an error or with a
    body; it dials at most once, and it dials at all exactly when some
    entry has the requested host. *)
Theorem AdapterPingHandler_answers_once (req : Request)
    (prefObj : Preference) (h : History) :
  count isResponse (AdapterPingHandler req prefObj h).2 = 1%nat
  ∧ (count isDial (AdapterPingHandler req prefObj h).2 ≤ 1)%nat
  ∧ (count isDial (AdapterPingHandler req prefObj h).2 = 1%nat
     ↔ ∃ ad, ad ∈ GoSlice.view (MeshAdapters prefObj)
             ∧ QueryGet req "adapter" = Host ad).
Proof.
  unfold AdapterPingHandler.
  destruct (AdapterPingHandler_scan (QueryGet req "adapter")
              (GoSlice.view (MeshAdapters prefObj)) None)
    as [target|] eqn:Hscan.
  - assert (Hex : ∃ ad, ad ∈ GoSlice.view (MeshAdapters prefObj)
                        ∧ QueryGet req "adapter" = Host ad).
    { destruct (decide (Exists (λ ad, QueryGet req "adapter" = Host ad)
                          (GoSlice.view (MeshAdapters prefObj))))
        as [Hex|Hno].
      - apply Exists_exists in Hex as (ad & Hin & Hhost). eauto.
      - rewrite AdapterPingHandler_scan_none in Hscan; [done|].
        intros ad Had Hhost. apply Hno. apply Exists_exists. eauto. }
    unfold bind, checkAdapterPingability, bind, Dial, call, emit, ret,
      httpError.
    destruct (env_Dial h _); cbn; by repeat split.
  - cbn. split; [done|]. split; [lia|]. split; [done|].
    intros Hex.
    destruct (AdapterPingHandler_scan_found _ _ None Hex) as (t & Ht & _).
    congruence.
Qed.


(* --------------------------------------------------------------------- *)
(** *** The handlers that call the registry                               *)
(* --------------------------------------------------------------------- *)

(** [strings.TrimSpace], and the error wrappers of the package's error
    file, outside the listing. *)
Variable TrimSpace : string → string.
Variable ErrRetrieveData : error → error.
Variable ErrRecordPreferences : error → error.
Variable ErrMarshal : error → string → error.

(** [provider.RecordPreferences], [json.NewEncoder(w).Encode] and
    [AdapterTracker.GetAdapters], as functions of what happened so far. *)
Variable env_RecordPreferences :
  History → string → Preference → option error.
Variable env_Encode : History → list Adapter → option error.
Variable env_GetAdapters : History → list Adapter.

Definition StatusNotFound : Z := 404.

(** The events of the registry and of the ping, and those only the calling
    handlers produce. *)
Inductive HandlerEvent :=
| Inner (e : Event)
| EvRecordPreferences (userID : string) (prefObj : Preference)
    (err : option error)
| EvEncode (adapters : list Adapter) (err : option error)
| EvWriteHeader (code : Z).

(** [json.NewEncoder(w).Encode(adapters)] and the 500 answer that follows
    its failure. *)
Definition encodeAdapters (adapters : list Adapter) (h : History)
  : list HandlerEvent :=
  let err := env_Encode h adapters in
  EvEncode adapters err ::
  match err with
  | Some e =>
      [Inner (EvHttpError (ErrorText (ErrMarshal e "data"))
                StatusInternalServerError)]
  | None => []
  end.

(** The end of [MeshAdapterConfigHandler], after the [switch]:
    [prefObj.MeshAdapters = meshAdapters], then [RecordPreferences], then
    the encoding of the list. *)
Definition MeshAdapterConfigHandler_record (meshAdapters : GoSlice.slice Adapter)
    (user : User) (h : History) : Preference * list HandlerEvent :=
  let prefObj := {| MeshAdapters := meshAdapters |} in
  let err := env_RecordPreferences h (UserID user) prefObj in
  (prefObj,
   EvRecordPreferences (UserID user) prefObj err ::
   match err with
   | Some e =>
       [Inner (EvHttpError (ErrorText (ErrRecordPreferences e))
                 StatusInternalServerError)]
   | None => encodeAdapters (GoSlice.view meshAdapters) h
   end).

(** [MeshAdapterConfigHandler]; [method] is [req.Method].  The result is
    the preference object as the handler leaves it, and the log. *)
Definition MeshAdapterConfigHandler (method : string) (req : Request)
    (prefObj : Preference) (user : User) (h : History)
  : Preference * list HandlerEvent :=
  let meshAdapters := MeshAdapters prefObj in
  if decide (method = "POST") then
    let meshLocationURL := FormValue req "meshLocationURL" in
    if decide (TrimSpace meshLocationURL = "") then
      (prefObj,
       [Inner (EvHttpError (ErrorText ErrAddAdapter) StatusBadRequest)])
    else
      let '((meshAdapters, err), evs) :=
        addAdapter meshAdapters meshLocationURL h in
      match err with
      | Some err =>
          (prefObj,
           Inner <$> (evs ++ [EvHttpError (ErrorText (ErrRetrieveData err))
                                StatusInternalServerError]))
      | None =>
          let (prefObj, out) :=
            MeshAdapterConfigHandler_record meshAdapters user (h ++ evs) in
          (prefObj, (Inner <$> evs) ++ out)
      end
  else if decide (method = "DELETE") then
    let '((meshAdapters, err), evs) := deleteAdapter meshAdapters req h in
    match err with
    | Some _ => (prefObj, Inner <$> evs)
    | None =>
        let (prefObj, out) :=
          MeshAdapterConfigHandler_record meshAdapters user (h ++ evs) in
        (prefObj, (Inner <$> evs) ++ out)
    end
  else
    (prefObj, [Inner (EvHttpError (Text "Not Found") StatusNotFound)]).

(** [AdaptersHandler]; [method] is [req.Method]. *)
Definition AdaptersHandler (method : string) (req : Request)
    (prefObj : Preference) (h : History) : list HandlerEvent :=
  if decide (method ≠ "GET") then [EvWriteHeader StatusNotFound]
  else
    let adapterLoc := QueryGet req "adapter" in
    if decide (adapterLoc ≠ "") then
      Inner <$> (AdapterPingHandler req prefObj h).2
    else encodeAdapters (env_GetAdapters h) h.

Definition isRecord (e : HandlerEvent) : bool :=
  match e with EvRecordPreferences _ _ _ => true | _ => false end.

Definition isEncode (e : HandlerEvent) : bool :=
  match e with EvEncode _ _ => true | _ => false end.

Definition isInnerDial (e : HandlerEvent) : bool :=
  match e with Inner (EvDial _ _) => true | _ => false end.


Definition hcount (p : HandlerEvent → bool) (evs : list HandlerEvent)
  : nat :=
  length (List.filter p evs).

Lemma hcount_app (p : HandlerEvent → bool) (l1 l2 : list HandlerEvent) :
  hcount p (l1 ++ l2) = (hcount p l1 + hcount p l2)%nat.
Proof. unfold hcount. by rewrite List.filter_app, length_app. Qed.

Lemma hcount_inner (p : HandlerEvent → bool) (evs : list Event) :
  (∀ e, p (Inner e) = false) → hcount p (Inner <$> evs) = 0%nat.
Proof.
  intros Hp. unfold hcount. induction evs as [|e evs IH]; [done|].
  simpl. by rewrite Hp.
Qed.

Lemma not_inner (e : HandlerEvent) (evs : list Event) :
  e ∈ Inner <$> evs → ∃ e', e = Inner e' ∧ e' ∈ evs.
Proof. apply list_elem_of_fmap. Qed.

(** The three ways the end of [MeshAdapterConfigHandler] can go. *)
Lemma MeshAdapterConfigHandler_record_cases
    (meshAdapters : GoSlice.slice Adapter) (user : User) (h : History) :
  let p := {| MeshAdapters := meshAdapters |} in
  let uid := UserID user in
  (∃ e, MeshAdapterConfigHandler_record meshAdapters user h
        = (p, [EvRecordPreferences uid p (Some e);
               Inner (EvHttpError (ErrorText (ErrRecordPreferences e))
                        StatusInternalServerError)]))
  ∨ (∃ e, MeshAdapterConfigHandler_record meshAdapters user h
          = (p, [EvRecordPreferences uid p None;
                 EvEncode (GoSlice.view meshAdapters) (Some e);
                 Inner (EvHttpError (ErrorText (ErrMarshal e "data"))
                          StatusInternalServerError)]))
  ∨ MeshAdapterConfigHandler_record meshAdapters user h
    = (p, [EvRecordPreferences uid p None;
           EvEncode (GoSlice.view meshAdapters) None]).
Proof.
  intros p uid. unfold MeshAdapterConfigHandler_record, encodeAdapters.
  fold p uid. destruct (env_RecordPreferences h uid p) as [e|].
  - left. by exists e.
  - destruct (env_Encode h (GoSlice.view meshAdapters)) as [e|].
    + right. left. by exists e.
    + by right; right.
Qed.

(** Every run of [MeshAdapterConfigHandler]: it stops before the
    recording and hands the preference object back, or it goes on to record
    the slice that a registration or a removal returned without error. *)
Lemma MeshAdapterConfigHandler_cases (method : string) (req : Request)
    (prefObj : Preference) (user : User) (h : History) :
  (∃ evs, MeshAdapterConfigHandler method req prefObj user h
          = (prefObj, Inner <$> evs)
          ∧ Forall (λ e, isRemoteCall e = true →
                         method = "POST"
                         ∧ TrimSpace (FormValue req "meshLocationURL") ≠ "")
              evs)
  ∨ ∃ s1 evs,
      ((method = "POST"
        ∧ TrimSpace (FormValue req "meshLocationURL") ≠ ""
        ∧ addAdapter (MeshAdapters prefObj)
            (FormValue req "meshLocationURL") h = ((s1, None), evs))
       ∨ (method = "DELETE"
          ∧ deleteAdapter (MeshAdapters prefObj) req h
            = ((s1, None), evs)))
      ∧ MeshAdapterConfigHandler method req prefObj user h
        = ((MeshAdapterConfigHandler_record s1 user (h ++ evs)).1,
           (Inner <$> evs)
           ++ (MeshAdapterConfigHandler_record s1 user (h ++ evs)).2).
Proof.
  unfold MeshAdapterConfigHandler.
  destruct (decide (method = "POST")) as [HP|HP].
  - destruct (decide (TrimSpace (FormValue req "meshLocationURL") = ""))
      as [Hblank|Hblank].
    { left. eexists [_]. split; [done|]. by repeat constructor. }
    destruct (addAdapter (MeshAdapters prefObj)
                (FormValue req "meshLocationURL") h)
      as [[s1 [err|]] evs] eqn:Hadd.
    + left. eexists. split; [done|]. apply Forall_forall. by intros e _ _.
    + right. exists s1, evs. split; [left; by eauto|].
      by destruct (MeshAdapterConfigHandler_record s1 user (h ++ evs)).
  - destruct (decide (method = "DELETE")) as [HD|HD].
    + destruct (deleteAdapter (MeshAdapters prefObj) req h)
        as [[s1 [err|]] evs] eqn:Hdel.
      * left. exists evs. split; [done|]. apply Forall_forall.
        intros e He Hrem. exfalso.
        unfold deleteAdapter in Hdel.
        destruct (_ <? 0); [|done].
        injection Hdel as _ _ <-.
        apply list_elem_of_singleton in He. by subst e.
      * right. exists s1, evs. split; [right; by eauto|].
        by destruct (MeshAdapterConfigHandler_record s1 user (h ++ evs)).
    + left. eexists [_]. split; [done|]. by repeat constructor.
Qed.


Lemma addAdapter_log_fresh (meshAdapters : GoSlice.slice Adapter)
    (url : string) (h : History) (e : Event) :
  e ∈ (addAdapter meshAdapters url h).2 →
  ∀ a, a ∈ GoSlice.view meshAdapters → Host a ≠ url.
Proof.
  intros Hin. apply addAdapter_scan_false.
  destruct (addAdapter_scan (GoSlice.view meshAdapters) url false) eqn:Hscan;
    [|done].
  unfold addAdapter in Hin. rewrite Hscan in Hin.
  by apply elem_of_nil in Hin.
Qed.

Lemma deleteAdapter_log_local (meshAdapters : GoSlice.slice Adapter)
    (req : Request) (h : History) (e : Event) :
  e ∈ (deleteAdapter meshAdapters req h).2 → isRemoteCall e = false.
Proof.
  unfold deleteAdapter. destruct (_ <? 0); simpl; intros Hin.
  - apply list_elem_of_singleton in Hin. by subst e.
  - by apply elem_of_nil in Hin.
Qed.

(** X18.  [MeshAdapterConfigHandler] records the preferences at most once,
    for the calling user, and only with the slice that a registration or a
    removal returned without error; the preference object it leaves behind
    is the recorded one, and when nothing is recorded it is the object the
    handler was given. *)
Theorem MeshAdapterConfigHandler_records_once (method : string)
    (req : Request) (prefObj : Preference) (user : User) (h : History) :
  let out := MeshAdapterConfigHandler method req prefObj user h in
  (hcount isRecord out.2 ≤ 1)%nat
  ∧ (hcount isRecord out.2 = 0%nat → out.1 = prefObj)
  ∧ ∀ uid p err,
      EvRecordPreferences uid p err ∈ out.2 →
      uid = UserID user ∧ p = out.1
      ∧ ((method = "POST"
          ∧ ∃ evs, addAdapter (MeshAdapters prefObj)
                     (FormValue req "meshLocationURL") h
                   = ((MeshAdapters p, None), evs))
         ∨ (method = "DELETE"
            ∧ ∃ evs, deleteAdapter (MeshAdapters prefObj) req h
                     = ((MeshAdapters p, None), evs))).
Proof.
  intros out. subst out.
  destruct (MeshAdapterConfigHandler_cases method req prefObj user h)
    as [(evs & -> & _)|(s1 & evs & Hwhy & ->)]; cbn [fst snd].
  - rewrite hcount_inner by done. split; [lia|]. split; [done|].
    intros uid p err Hin. by destruct (not_inner _ _ Hin) as (e' & ? & _).
  - rewrite hcount_app, hcount_inner by done.
    assert (Hrec : ∃ err rest,
      MeshAdapterConfigHandler_record s1 user (h ++ evs)
      = ({| MeshAdapters := s1 |},
         EvRecordPreferences (UserID user) {| MeshAdapters := s1 |} err
         :: rest)
      ∧ hcount isRecord rest = 0%nat
      ∧ ∀ uid p e, EvRecordPreferences uid p e ∉ rest).
    { destruct (MeshAdapterConfigHandler_record_cases s1 user (h ++ evs))
        as [(e & ->)|[(e & ->)| ->]]; eexists _, _;
        (split; [reflexivity|]); (split; [done|]);
        intros uid p e' Hin; apply list_elem_of_In in Hin; simpl in Hin;
        repeat (destruct Hin as [Hin|Hin]; try discriminate Hin);
        contradiction. }
    destruct Hrec as (err0 & rest & -> & Hzero & Hnone). simpl.
    unfold hcount in *. simpl. rewrite Hzero.
    split; [lia|]. split; [lia|]. intros uid p err Hin.
    apply elem_of_app in Hin as [Hin|Hin].
    { by destruct (not_inner _ _ Hin) as (e' & ? & _). }
    apply elem_of_cons in Hin as [Heq|Hin]; [|by destruct (Hnone uid p err)].
    injection Heq as -> -> ->. split; [done|]. split; [done|]. simpl.
    destruct Hwhy as [(HP & _ & Hadd)|(HD & Hdel)]; eauto.
Qed.

(** X19.  When the recording of the preferences fails, the handler answers
    500 and encodes nothing, but the preference object it leaves behind
    already holds the new list. *)
Theorem MeshAdapterConfigHandler_record_failure (method : string)
    (req : Request) (prefObj : Preference) (user : User) (h : History)
    (uid : string) (p : Preference) (e : error) :
  let out := MeshAdapterConfigHandler method req prefObj user h in
  EvRecordPreferences uid p (Some e) ∈ out.2 →
  out.1 = p
  ∧ hcount isEncode out.2 = 0%nat
  ∧ last out.2
    = Some (Inner (EvHttpError (ErrorText (ErrRecordPreferences e))
                     StatusInternalServerError)).
Proof.
  intros out. subst out.
  destruct (MeshAdapterConfigHandler_cases method req prefObj user h)
    as [(evs & -> & _)|(s1 & evs & _ & ->)]; cbn [fst snd]; intros Hin.
  { by destruct (not_inner _ _ Hin) as (e' & ? & _). }
  apply elem_of_app in Hin as [Hin|Hin].
  { by destruct (not_inner _ _ Hin) as (e' & ? & _). }
  rewrite hcount_app, hcount_inner by done.
  destruct (MeshAdapterConfigHandler_record_cases s1 user (h ++ evs))
    as [(e0 & Hrec)|[(e0 & Hrec)|Hrec]]; rewrite Hrec in *; simpl in *;
    apply list_elem_of_In in Hin; simpl in Hin;
    repeat (destruct Hin as [Hin|Hin]; try discriminate Hin);
    try contradiction.
  injection Hin as <- <- <-. split; [done|]. split; [done|].
  by rewrite last_app.
Qed.

(** X20.  The list [MeshAdapterConfigHandler] encodes into the response is
    the list of the preference object it has just recorded without error. *)
Theorem MeshAdapterConfigHandler_encodes_recorded (method : string)
    (req : Request) (prefObj : Preference) (user : User) (h : History)
    (l : list Adapter) (err : option error) :
  let out := MeshAdapterConfigHandler method req prefObj user h in
  EvEncode l err ∈ out.2 →
  l = GoSlice.view (MeshAdapters out.1)
  ∧ EvRecordPreferences (UserID user) out.1 None ∈ out.2.
Proof.
  intros out. subst out.
  destruct (MeshAdapterConfigHandler_cases method req prefObj user h)
    as [(evs & -> & _)|(s1 & evs & _ & ->)]; cbn [fst snd]; intros Hin.
  { by destruct (not_inner _ _ Hin) as (e' & ? & _). }
  apply elem_of_app in Hin as [Hin|Hin].
  { by destruct (not_inner _ _ Hin) as (e' & ? & _). }
  destruct (MeshAdapterConfigHandler_record_cases s1 user (h ++ evs))
    as [(e0 & Hrec)|[(e0 & Hrec)|Hrec]]; rewrite Hrec in *; simpl in *;
    apply list_elem_of_In in Hin; simpl in Hin;
    repeat (destruct Hin as [Hin|Hin]; try discriminate Hin);
    try contradiction; injection Hin as <- <-; (split; [done|]);
    apply elem_of_app; right; by left.
Qed.

(** X21.  [MeshAdapterConfigHandler] reaches a remote adapter only for a
    [POST] whose address is not blank and is the host of no entry yet. *)
Theorem MeshAdapterConfigHandler_remote_calls (method : string)
    (req : Request) (prefObj : Preference) (user : User) (h : History)
    (e : Event) :
  Inner e ∈ (MeshAdapterConfigHandler method req prefObj user h).2 →
  isRemoteCall e = true →
  method = "POST"
  ∧ TrimSpace (FormValue req "meshLocationURL") ≠ ""
  ∧ ∀ a, a ∈ GoSlice.view (MeshAdapters prefObj) →
         Host a ≠ FormValue req "meshLocationURL".
Proof.
  intros Hin Hrem.
  assert (Hrec : ∀ s1 h1, Inner e ∉ (MeshAdapterConfigHandler_record s1 user h1).2).
  { intros s1 h1 Hc.
    destruct (MeshAdapterConfigHandler_record_cases s1 user h1)
      as [(e0 & Hrec)|[(e0 & Hrec)|Hrec]]; rewrite Hrec in Hc; simpl in Hc;
      apply list_elem_of_In in Hc; simpl in Hc;
      repeat (destruct Hc as [Hc|Hc]; try discriminate Hc);
      try contradiction; injection Hc as <-; discriminate Hrem. }
  assert (Hinj : ∀ evs : list Event, Inner e ∈ Inner <$> evs → e ∈ evs).
  { intros evs Hc. apply list_elem_of_fmap in Hc as (e' & Heq & He').
    by injection Heq as ->. }
  unfold MeshAdapterConfigHandler in Hin.
  destruct (decide (method = "POST")) as [HP|HP].
  - destruct (decide (TrimSpace (FormValue req "meshLocationURL") = ""))
      as [Hblank|Hblank].
    { apply list_elem_of_singleton in Hin. injection Hin as ->.
      discriminate Hrem. }
    split; [done|]. split; [done|].
    destruct (addAdapter (MeshAdapters prefObj)
                (FormValue req "meshLocationURL") h)
      as [[s1 [err|]] evs] eqn:Hadd.
    + simpl in Hin. apply Hinj, elem_of_app in Hin as [Hin|Hin].
      * apply (addAdapter_log_fresh _ _ h e). by rewrite Hadd.
      * apply list_elem_of_singleton in Hin. subst e. discriminate Hrem.
    + destruct (MeshAdapterConfigHandler_record s1 user (h ++ evs))
        as [p out] eqn:Hr.
      simpl in Hin. apply elem_of_app in Hin as [Hin|Hin].
      * apply (addAdapter_log_fresh _ _ h e). rewrite Hadd. by apply Hinj.
      * destruct (Hrec s1 (h ++ evs)). by rewrite Hr.
  - exfalso. destruct (decide (method = "DELETE")) as [HD|HD].
    + destruct (deleteAdapter (MeshAdapters prefObj) req h)
        as [[s1 [err|]] evs] eqn:Hdel.
      * simpl in Hin. apply Hinj in Hin.
        pose proof (deleteAdapter_log_local (MeshAdapters prefObj) req h e)
          as Hloc.
        rewrite Hdel in Hloc. specialize (Hloc Hin). congruence.
      * destruct (MeshAdapterConfigHandler_record s1 user (h ++ evs))
          as [p out] eqn:Hr.
        simpl in Hin. apply elem_of_app in Hin as [Hin|Hin].
        -- apply Hinj in Hin.
           pose proof (deleteAdapter_log_local (MeshAdapters prefObj) req h e)
             as Hloc.
           rewrite Hdel in Hloc. specialize (Hloc Hin). congruence.
        -- destruct (Hrec s1 (h ++ evs)). by rewrite Hr.
    + apply list_elem_of_singleton in Hin. injection Hin as ->.
      discriminate Hrem.
Qed.

(** X22.  A [POST] for a host that is already registered calls no adapter,
    yet it is not a no-op for the store: the handler records the
    preferences again, with the list it was given, and encodes that list. *)
Theorem MeshAdapterConfigHandler_duplicate (req : Request)
    (prefObj : Preference) (user : User) (h : History) :
  TrimSpace (FormValue req "meshLocationURL") ≠ "" →
  (∃ a, a ∈ GoSlice.view (MeshAdapters prefObj)
        ∧ Host a = FormValue req "meshLocationURL") →
  MeshAdapterConfigHandler "POST" req prefObj user h
  = MeshAdapterConfigHandler_record (MeshAdapters prefObj) user h
  ∧ ∃ err rest,
      (MeshAdapterConfigHandler "POST" req prefObj user h).2
      = EvRecordPreferences (UserID user)
          {| MeshAdapters := MeshAdapters prefObj |} err :: rest.
Proof.
  intros Hblank Hdup. unfold MeshAdapterConfigHandler.
  rewrite decide_True by done. rewrite decide_False by done.
  rewrite (addAdapter_duplicate _ _ h Hdup). rewrite app_nil_r. simpl.
  destruct (MeshAdapterConfigHandler_record (MeshAdapters prefObj) user h)
    as [p out] eqn:Hr.
  split; [done|]. simpl.
  destruct (MeshAdapterConfigHandler_record_cases (MeshAdapters prefObj)
              user h) as [(e & Hc)|[(e & Hc)|Hc]];
    rewrite Hc in Hr; injection Hr as <- <-; by eexists _, _.
Qed.

Lemma AdapterPingHandler_dial_iff (req : Request) (prefObj : Preference)
    (h : History) :
  (∃ address connected,
     EvDial address connected ∈ (AdapterPingHandler req prefObj h).2)
  ↔ ∃ ad, ad ∈ GoSlice.view (MeshAdapters prefObj)
          ∧ QueryGet req "adapter" = Host ad.
Proof.
  split.
  - intros (address & connected & Hin).
    destruct (decide (Exists (λ ad, QueryGet req "adapter" = Host ad)
                        (GoSlice.view (MeshAdapters prefObj))))
      as [Hex|Hno].
    { apply Exists_exists in Hex as (ad & Had & Hhost). eauto. }
    rewrite AdapterPingHandler_unresolved in Hin.
    + by apply list_elem_of_singleton in Hin.
    + intros ad Had Hhost. apply Hno. apply Exists_exists. eauto.
  - intros Hex.
    destruct (AdapterPingHandler_resolved req prefObj h Hex)
      as (target & connected & rest & _ & _ & ->).
    eexists _, _. by left.
Qed.

(** X23.  [AdaptersHandler] opens a connection exactly for a [GET] whose
    [adapter] query is not empty and is the host of an entry; an entry
    whose host is the empty text cannot be pinged through it. *)
Theorem AdaptersHandler_dials_iff (method : string) (req : Request)
    (prefObj : Preference) (h : History) :
  (∃ address connected,
     Inner (EvDial address connected)
       ∈ AdaptersHandler method req prefObj h)
  ↔ method = "GET"
    ∧ QueryGet req "adapter" ≠ ""
    ∧ ∃ ad, ad ∈ GoSlice.view (MeshAdapters prefObj)
            ∧ QueryGet req "adapter" = Host ad.
Proof.
  unfold AdaptersHandler.
  destruct (decide (method ≠ "GET")) as [HG|HG].
  { split; [|by intros (? & _)]. intros (a & c & Hin).
    by apply list_elem_of_singleton in Hin. }
  assert (method = "GET") as -> by (by destruct (decide (method = "GET"))).
  destruct (decide (QueryGet req "adapter" ≠ "")) as [HQ|HQ].
  - rewrite <- AdapterPingHandler_dial_iff. split.
    + intros (a & c & Hin). split; [done|]. split; [done|].
      apply list_elem_of_fmap in Hin as (e' & Heq & He').
      injection Heq as <-. eauto.
    + intros (_ & _ & a & c & Hin). exists a, c.
      apply list_elem_of_fmap. eauto.
  - split; [|by intros (_ & ? & _)]. intros (a & c & Hin).
    unfold encodeAdapters in Hin.
    apply list_elem_of_In in Hin. simpl in Hin.
    destruct Hin as [Hin|Hin]; [discriminate Hin|].
    destruct (env_Encode h _); simpl in Hin;
      repeat (destruct Hin as [Hin|Hin]; try discriminate Hin);
      contradiction.
Qed.

End Handlers.

(** *** A concrete fleet

    Integer ports rendered in decimal, three registered adapters, and a
    world in which the hosts [down:1], [noops:1] and [noinfo:1] fail at the
    three stages of a registration and the cluster context [broken] fails
    to generate its credentials. *)

Abbreviation adapter := (Adapter Z string).
Abbreviation history := (History Z string).

Definition world_CreateClient (h : history) (host : string)
  : option error :=
  if decide (host = "down:1") then Some (ErrExternal "connection refused")
  else None.

Definition world_SupportedOperations (h : history) (host : string)
  : result (list string) :=
  if decide (host = "noops:1") then Err (ErrExternal "ops unavailable")
  else Ok ["apply"].

Definition world_ComponentInfo (h : history) (host : string)
  : result ComponentInfoResponse :=
  if decide (host = "noinfo:1") then Err (ErrExternal "info unavailable")
  else Ok {| ciName := "mesh"; ciVersion := "v1"; ciGitSha := "0f3a" |}.

Definition world_GetNextAvailablePort (h : history) : Z :=
  10000 + Z.of_nat (length h).

Definition world_NewV4 (h : history) : result string :=
  Ok ("op-" +:+ pretty (length h)).

Definition world_ApplyOperation (h : history) (host : string)
    (req : ApplyRuleRequest) : option error := None.

Definition world_GenerateKubeConfig (c : string) : result string :=
  if decide (c = "broken") then Err (ErrExternal "no such context")
  else Ok ("kubeconfig of " +:+ c).

Definition world_addAdapter :=
  addAdapter Z string world_CreateClient world_SupportedOperations
    world_ComponentInfo world_GetNextAvailablePort.

Definition world_deleteAdapter := deleteAdapter Z string string.

Definition world_MeshOpsHandler :=
  MeshOpsHandler Z string string pretty world_CreateClient world_NewV4
    world_ApplyOperation world_GenerateKubeConfig.

Definition adapterA : adapter :=
  {| Host := "A"; Name := "mesh"; Version := "v1"; GitCommitSHA := "0f3a";
     Ops := ["apply"]; Port := 10000; Available := true |}.

Definition adapterB : adapter :=
  {| Host := "B"; Name := "mesh"; Version := "v1"; GitCommitSHA := "0f3a";
     Ops := ["apply"]; Port := 10001; Available := true |}.

Definition adapterC : adapter :=
  {| Host := "C"; Name := "mesh"; Version := "v2"; GitCommitSHA := "77c1";
     Ops := []; Port := 10002; Available := false |}.

Definition fleet : GoSlice.slice adapter :=
  GoSlice.Slice [adapterA; adapterB; adapterC] 0 3.

(** Form and query values of a request, as an association list. *)
Fixpoint field (fields : list (string * string)) (key : string) : string :=
  match fields with
  | [] => ""
  | (k, v) :: rest => if decide (k = key) then v else field rest key
  end.

Definition request (fields : list (string * string))
    (contexts : option (list string)) : Request string :=
  {| FormValue := field fields; QueryGet := field fields;
     KubeClusters := contexts |}.

Definition localProvider : Provider string :=
  {| GetProviderType := LocalProviderType;
     GetProviderToken := λ _, Err (ErrExternal "no token") |}.

Definition alice : User := {| UserID := "alice" |}.

Definition preferences : Preference Z string := {| MeshAdapters := fleet |}.

(** A dispatch to adapter [A] by host and port, with [deleteOp] set to the
    text [false]. *)
Definition dispatchRequest (contexts : option (list string))
  : Request string :=
  request [("adapter", "A:10000"); ("query", "apply");
           ("deleteOp", "false")] contexts.

(** The request that dispatch sends to the adapter. *)
Definition sentRequest : ApplyRuleRequest :=
  {| OperationId := "op-1"; OpName := "apply"; Username := "alice";
     Namespace := "default"; CustomBody := ""; DeleteOp := true;
     KubeConfigs := ["kubeconfig of c1"; "kubeconfig of c2"] |}.

Lemma fleet_wf : GoSlice.wf fleet.
Proof. unfold GoSlice.wf. simpl. lia. Qed.

Lemma fleet_uniqueHosts : uniqueHosts Z string (GoSlice.view fleet).
Proof.
  unfold uniqueHosts. apply (bool_decide_unpack _). vm_compute. exact I.
Qed.

(** Registering a fourth host appends it with the next port; registering
    it again changes nothing and calls nobody. *)
Example addAdapter_new_then_again :
  ∃ s1 evs,
    world_addAdapter fleet "D" [] = ((s1, None), evs)
    ∧ Host Z string <$> GoSlice.view s1 = ["A"; "B"; "C"; "D"]
    ∧ world_addAdapter s1 "D" evs = ((s1, None), []).
Proof. eexists _, _. by vm_compute. Qed.

(** The three failing registrations: the slice comes back as it was, and
    the client, once created, is closed. *)
Example addAdapter_failures :
  world_addAdapter fleet "down:1" []
  = ((fleet, Some ErrMeshClient),
     [EvCreateClient _ _ "down:1" (Some (ErrExternal "connection refused"))])
  ∧ world_addAdapter fleet "noops:1" []
    = ((fleet, Some (ErrExternal "ops unavailable")),
       [EvCreateClient _ _ "noops:1" None;
        EvSupportedOperations _ _ "noops:1"
          (Err (ErrExternal "ops unavailable"));
        EvClose _ _ "noops:1"])
  ∧ world_addAdapter fleet "noinfo:1" []
    = ((fleet, Some (ErrExternal "info unavailable")),
       [EvCreateClient _ _ "noinfo:1" None;
        EvSupportedOperations _ _ "noinfo:1" (Ok ["apply"]);
        EvComponentInfo _ _ "noinfo:1" (Err (ErrExternal "info unavailable"));
        EvClose _ _ "noinfo:1"]).
Proof. repeat split; reflexivity. Qed.

(** Removing the middle entry writes in place: the backing array keeps a
    stale copy of the last entry beyond the new length. *)
Example deleteAdapter_middle_in_place :
  world_deleteAdapter fleet (request [("adapter", "B")] None) []
  = ((GoSlice.Slice [adapterA; adapterC; adapterC] 0 2, None), []).
Proof. reflexivity. Qed.

Example deleteAdapter_first_and_last :
  (world_deleteAdapter fleet (request [("adapter", "A")] None) []).1.1
  = GoSlice.Slice [adapterA; adapterB; adapterC] 1 2
  ∧ (world_deleteAdapter fleet (request [("adapter", "C")] None) []).1.1
    = GoSlice.Slice [adapterA; adapterB; adapterC] 0 2.
Proof. split; reflexivity. Qed.

(** The flag is set by any non-empty text, also by [0]. *)
Example delete_flag_of_zero :
  ∃ r,
    EvApplyOperation Z string "A" r None
      ∈ (world_MeshOpsHandler
           (request [("adapter", "A:10000"); ("deleteOp", "0")]
              (Some ["c1"])) preferences alice localProvider []).2
    ∧ DeleteOp r = true.
Proof.
  eexists. split; [|shelve].
  vm_compute. apply list_elem_of_In. simpl. right. right. left. reflexivity.
  Unshelve. reflexivity.
Qed.

Lemma addAdapter_already_configured_witness :
  world_addAdapter fleet "B" [] = ((fleet, None), [])
  ∧ Forall (λ e, isCapabilityRPC Z string e = false)
      (world_addAdapter fleet "B" []).2
  ∧ hostCount Z string "B" (GoSlice.view (world_addAdapter fleet "B" []).1.1)
    = 1%nat.
Proof.
  destruct (addAdapter_already_configured Z string world_CreateClient
              world_SupportedOperations world_ComponentInfo
              world_GetNextAvailablePort fleet "B" [])
    as (Hrun & Hrpc & Hone).
  - exists adapterB. split; [|reflexivity].
    apply list_elem_of_In. simpl. right. left. reflexivity.
  - split; [exact Hrun|]. split; [exact Hrpc|].
    apply Hone. exact fleet_uniqueHosts.
Defined.

Lemma addAdapter_failure_adds_nothing_witness :
  ∃ err evs,
    world_addAdapter fleet "noinfo:1" [] = ((fleet, Some err), evs)
    ∧ Forall (λ e, isAllocation Z string e = false) evs
    ∧ hostCount Z string "noinfo:1" (GoSlice.view fleet) = 0%nat.
Proof.
  apply (addAdapter_failure_adds_nothing Z string world_CreateClient
           world_SupportedOperations world_ComponentInfo
           world_GetNextAvailablePort fleet "noinfo:1" []).
  - intros a Ha. apply list_elem_of_In in Ha. simpl in Ha.
    destruct Ha as [<-|[<-|[<-|[]]]]; discriminate.
  - right. right. split; [reflexivity|].
    exists ["apply"], (ErrExternal "info unavailable").
    split; reflexivity.
Defined.

Lemma deleteAdapter_not_found_witness :
  world_deleteAdapter fleet (request [("adapter", "Z")] None) []
  = ((fleet, Some ErrValidAdapter),
     [EvHttpError Z string (ErrorText ErrValidAdapter) StatusBadRequest]).
Proof.
  apply (deleteAdapter_not_found Z string string fleet
           (request [("adapter", "Z")] None) []).
  intros a Ha. apply list_elem_of_In in Ha. simpl in Ha.
  destruct Ha as [<-|[<-|[<-|[]]]]; discriminate.
Defined.

Lemma deleteAdapter_position_stable_witness :
  ∃ newMeshAdapters,
    world_deleteAdapter fleet (request [("adapter", "B")] None) []
    = ((newMeshAdapters, None), [])
    ∧ GoSlice.wf newMeshAdapters
    ∧ GoSlice.view newMeshAdapters = [adapterA; adapterC].
Proof.
  apply (deleteAdapter_position_stable Z string string fleet
           (request [("adapter", "B")] None) [] 1 adapterB).
  - exact fleet_wf.
  - reflexivity.
  - reflexivity.
  - intros j b Hj Hb. destruct j as [|j]; [|lia].
    simpl in Hb. injection Hb as <-. discriminate.
Defined.

Lemma MeshOpsHandler_unknown_adapter_witness :
  (world_MeshOpsHandler (request [("adapter", "A")] (Some ["c1"]))
     preferences alice localProvider []).2
  = [EvHttpError Z string (ErrorText ErrValidAdapter) StatusBadRequest]
  ∧ Forall (λ e, isRemoteCall Z string e = false)
      (world_MeshOpsHandler (request [("adapter", "A")] (Some ["c1"]))
         preferences alice localProvider []).2.
Proof.
  apply (proj2 (proj2 (proj2
           (MeshOpsHandler_unknown_adapter Z string string pretty
              world_CreateClient world_NewV4 world_ApplyOperation
              world_GenerateKubeConfig)))
           (request [("adapter", "A")] (Some ["c1"])) preferences alice
           localProvider []).
  intros ad Had. apply list_elem_of_In in Had. simpl in Had.
  destruct Had as [<-|[<-|[<-|[]]]]; discriminate.
Defined.

Lemma MeshOpsHandler_credentials_all_or_nothing_witness :
  (world_MeshOpsHandler (dispatchRequest (Some ["c1"; "broken"; "c3"]))
     preferences alice localProvider []).2
  = [EvHttpError Z string (ErrorText (ErrExternal "no such context"))
       StatusInternalServerError]
  ∧ Forall (λ e, isRemoteCall Z string e = false)
      (world_MeshOpsHandler (dispatchRequest (Some ["c1"; "broken"; "c3"]))
         preferences alice localProvider []).2.
Proof.
  destruct (MeshOpsHandler_credentials_all_or_nothing Z string string pretty
              world_CreateClient world_NewV4 world_ApplyOperation
              world_GenerateKubeConfig
              (dispatchRequest (Some ["c1"; "broken"; "c3"])) preferences
              alice localProvider [])
    as (_ & _ & Hgen).
  apply (Hgen (ex_intro _ adapterA (conj (list_elem_of_here _ _) eq_refl))
           ["c1"] "broken" ["c3"] (ErrExternal "no such context")).
  - reflexivity.
  - constructor; [|constructor]. eexists. reflexivity.
  - reflexivity.
Defined.

Lemma MeshOpsHandler_delete_flag_witness :
  EvApplyOperation Z string "A" sentRequest None
    ∈ (world_MeshOpsHandler (dispatchRequest (Some ["c1"; "c2"]))
         preferences alice localProvider []).2
  ∧ DeleteOp sentRequest = true
  ∧ FormValue string (dispatchRequest (Some ["c1"; "c2"])) "deleteOp"
    = "false".
Proof.
  assert (Hin : EvApplyOperation Z string "A" sentRequest None
                ∈ (world_MeshOpsHandler (dispatchRequest (Some ["c1"; "c2"]))
                     preferences alice localProvider []).2).
  { apply list_elem_of_In. vm_compute. right. right. left. reflexivity. }
  split; [exact Hin|]. split; [|reflexivity].
  apply (proj1 (MeshOpsHandler_delete_flag Z string string pretty
                  world_CreateClient world_NewV4 world_ApplyOperation
                  world_GenerateKubeConfig _ _ _ _ _ _ _ _ Hin)).
  discriminate.
Defined.


(** *** The fleet under further operations *)

Definition world_Dial (h : history) (address : string) : bool :=
  bool_decide (address = "localhost:10000").

(** Trimming of leading blanks, enough to tell a blank address. *)
Fixpoint world_TrimSpace (s : string) : string :=
  match s with
  | String c rest =>
      if decide (c = Ascii.ascii_of_nat 32) then world_TrimSpace rest else s
  | EmptyString => s
  end.

Definition world_ErrRetrieveData (e : error) : error :=
  ErrExternal "failed to retrieve data".

Definition world_ErrRecordPreferences (e : error) : error :=
  ErrExternal "failed to record preferences".

Definition world_ErrMarshal (e : error) (obj : string) : error :=
  ErrExternal ("failed to marshal " +:+ obj).

(** A store that refuses the user [mallory]. *)
Definition world_RecordPreferences (h : history) (userID : string)
    (prefObj : Preference Z string) : option error :=
  if decide (userID = "mallory") then Some (ErrExternal "store unavailable")
  else None.

Definition world_Encode (h : history) (adapters : list adapter)
  : option error := None.

Definition world_AdapterPingHandler :=
  AdapterPingHandler Z string string pretty world_Dial.

Definition world_MeshAdapterConfigHandler :=
  MeshAdapterConfigHandler Z string string world_CreateClient
    world_SupportedOperations world_ComponentInfo world_GetNextAvailablePort
    world_TrimSpace world_ErrRetrieveData world_ErrRecordPreferences
    world_ErrMarshal world_RecordPreferences world_Encode.

Definition mallory : User := {| UserID := "mallory" |}.

(** A second entry with the host and port of [adapterA]. *)
Definition adapterA' : adapter :=
  {| Host := "A"; Name := "shadow"; Version := "v0"; GitCommitSHA := "";
     Ops := []; Port := 10000; Available := false |}.

Definition twins : Preference Z string :=
  {| MeshAdapters := GoSlice.Slice [adapterB; adapterA; adapterA'] 0 3 |}.

Definition adapterD : adapter :=
  newAdapter Z string "D" ["apply"]
    {| ciName := "mesh"; ciVersion := "v1"; ciGitSha := "0f3a" |} 10003.

Lemma fleet_fresh (url : string) :
  url ≠ "A" → url ≠ "B" → url ≠ "C" →
  ∀ a, a ∈ GoSlice.view fleet → Host Z string a ≠ url.
Proof.
  intros HA HB HC a Ha. apply list_elem_of_In in Ha. simpl in Ha.
  destruct Ha as [<-|[<-|[<-|[]]]]; simpl; congruence.
Qed.

Lemma fleet_first_B :
  ∀ j b, (j < 1)%nat → GoSlice.view fleet !! j = Some b →
         Host Z string b ≠ "B".
Proof.
  intros j b Hj Hb. destruct j as [|j]; [|lia].
  simpl in Hb. injection Hb as <-. discriminate.
Qed.

Lemma dispatch_sends :
  EvApplyOperation Z string "A" sentRequest None
    ∈ (world_MeshOpsHandler (dispatchRequest (Some ["c1"; "c2"]))
         preferences alice localProvider []).2.
Proof. apply list_elem_of_In. vm_compute. auto. Qed.

Lemma addAdapter_appends_last_witness :
  ∃ ops info port,
    GoSlice.view (world_addAdapter fleet "D" []).1.1
    = GoSlice.view fleet ++ [newAdapter Z string "D" ops info port]
    ∧ GoSlice.wf (world_addAdapter fleet "D" []).1.1
    ∧ (world_addAdapter fleet "D" []).2
      = [EvCreateClient Z string "D" None;
         EvSupportedOperations Z string "D" (Ok ops);
         EvComponentInfo Z string "D" (Ok info);
         EvGetNextAvailablePort Z string port;
         EvCheckAdapterAvailability Z string
           (newAdapter Z string "D" ops info port);
         EvTrackerAddAdapter Z string
           (newAdapter Z string "D" ops info port);
         EvClose Z string "D"].
Proof.
  apply (addAdapter_appends_last Z string world_CreateClient
           world_SupportedOperations world_ComponentInfo
           world_GetNextAvailablePort fleet
           (world_addAdapter fleet "D" []).1.1 "D" []
           (world_addAdapter fleet "D" []).2).
  - exact fleet_wf.
  - by apply fleet_fresh.
  - reflexivity.
Defined.

Lemma addAdapter_keeps_invariant_witness :
  GoSlice.wf (world_addAdapter fleet "D" []).1.1
  ∧ uniqueHosts Z string (GoSlice.view (world_addAdapter fleet "D" []).1.1).
Proof.
  apply (addAdapter_keeps_invariant Z string world_CreateClient
           world_SupportedOperations world_ComponentInfo
           world_GetNextAvailablePort fleet "D" []).
  - exact fleet_wf.
  - exact fleet_uniqueHosts.
Defined.

Lemma deleteAdapter_removes_one_witness :
  GoSlice.wf (GoSlice.Slice [adapterA; adapterC; adapterC] 0 2)
  ∧ S (length (GoSlice.view
                 (GoSlice.Slice [adapterA; adapterC; adapterC] 0 2)))
    = length (GoSlice.view fleet)
  ∧ S (hostCount Z string "B"
         (GoSlice.view (GoSlice.Slice [adapterA; adapterC; adapterC] 0 2)))
    = hostCount Z string "B" (GoSlice.view fleet)
  ∧ ∀ host, host ≠ "B" →
            hostCount Z string host
              (GoSlice.view
                 (GoSlice.Slice [adapterA; adapterC; adapterC] 0 2))
            = hostCount Z string host (GoSlice.view fleet).
Proof.
  apply (deleteAdapter_removes_one Z string string fleet
           (GoSlice.Slice [adapterA; adapterC; adapterC] 0 2)
           (request [("adapter", "B")] None) [] []).
  - exact fleet_wf.
  - reflexivity.
Defined.

Lemma deleteAdapter_keeps_invariant_witness :
  GoSlice.wf
    (world_deleteAdapter fleet (request [("adapter", "B")] None) []).1.1
  ∧ uniqueHosts Z string
      (GoSlice.view
         (world_deleteAdapter fleet (request [("adapter", "B")] None)
            []).1.1).
Proof.
  apply (deleteAdapter_keeps_invariant Z string string fleet
           (request [("adapter", "B")] None) []).
  - exact fleet_wf.
  - exact fleet_uniqueHosts.
Defined.

Lemma addAdapter_then_deleteAdapter_witness :
  ∃ s2,
    world_deleteAdapter (world_addAdapter fleet "D" []).1.1
      (request [("adapter", "D")] None) (world_addAdapter fleet "D" []).2
    = ((s2, None), [])
    ∧ GoSlice.wf s2
    ∧ GoSlice.view s2 = [adapterA; adapterB; adapterC].
Proof.
  apply (addAdapter_then_deleteAdapter Z string string world_CreateClient
           world_SupportedOperations world_ComponentInfo
           world_GetNextAvailablePort fleet
           (world_addAdapter fleet "D" []).1.1
           (request [("adapter", "D")] None) []
           (world_addAdapter fleet "D" []).2
           (world_addAdapter fleet "D" []).2).
  - exact fleet_wf.
  - by apply fleet_fresh.
  - reflexivity.
Defined.

Lemma deleteAdapter_twice_witness :
  world_deleteAdapter (GoSlice.Slice [adapterA; adapterC; adapterC] 0 2)
    (request [("adapter", "B")] None) []
  = ((GoSlice.Slice [adapterA; adapterC; adapterC] 0 2,
      Some ErrValidAdapter),
     [EvHttpError Z string (ErrorText ErrValidAdapter) StatusBadRequest]).
Proof.
  apply (deleteAdapter_twice Z string string fleet
           (GoSlice.Slice [adapterA; adapterC; adapterC] 0 2)
           (request [("adapter", "B")] None) [] [] []).
  - exact fleet_wf.
  - exact fleet_uniqueHosts.
  - reflexivity.
Defined.

Lemma deleteAdapter_shares_array_witness :
  length (GoSlice.arr
            (world_deleteAdapter fleet (request [("adapter", "B")] None)
               []).1.1) = 3%nat
  ∧ GoSlice.view
      (GoSlice.Slice
         (GoSlice.arr
            (world_deleteAdapter fleet (request [("adapter", "B")] None)
               []).1.1) 0 3)
    = [adapterA; adapterC; adapterC].
Proof.
  destruct (deleteAdapter_shares_array Z string string fleet
              (request [("adapter", "B")] None) [] 1 adapterB)
    as (Hlen & _ & Hold).
  - exact fleet_wf.
  - reflexivity.
  - reflexivity.
  - exact fleet_first_B.
  - split; [exact Hlen|]. apply Hold; discriminate.
Defined.

Lemma MeshOpsHandler_request_fields_witness :
  (∃ target, resolvesTo Z string string pretty
               (dispatchRequest (Some ["c1"; "c2"])) preferences target
             ∧ "A" = Host Z string target)
  ∧ EvNewV4 Z string (Ok "op-1")
      ∈ (world_MeshOpsHandler (dispatchRequest (Some ["c1"; "c2"]))
           preferences alice localProvider []).2
  ∧ Username sentRequest = "alice"
  ∧ OpName sentRequest = "apply"
  ∧ CustomBody sentRequest = "".
Proof.
  exact (MeshOpsHandler_request_fields Z string string pretty
           world_CreateClient world_NewV4 world_ApplyOperation
           world_GenerateKubeConfig _ _ _ _ _ _ _ _ dispatch_sends).
Defined.

Lemma MeshOpsHandler_kubeconfigs_in_order_witness :
  ∃ cs, Some ["c1"; "c2"] = Some cs
        ∧ length ["kubeconfig of c1"; "kubeconfig of c2"] = length cs
        ∧ Forall2 (λ c kc, world_GenerateKubeConfig c = Ok kc) cs
            ["kubeconfig of c1"; "kubeconfig of c2"].
Proof.
  exact (MeshOpsHandler_kubeconfigs_in_order Z string string pretty
           world_CreateClient world_NewV4 world_ApplyOperation
           world_GenerateKubeConfig _ _ _ _ _ _ _ _ dispatch_sends).
Defined.

Lemma MeshOpsHandler_namespace_default_witness :
  Namespace sentRequest ≠ ""
  ∧ (FormValue string (dispatchRequest (Some ["c1"; "c2"])) "namespace" = ""
     → Namespace sentRequest = "default")
  ∧ (FormValue string (dispatchRequest (Some ["c1"; "c2"])) "namespace" ≠ ""
     → Namespace sentRequest
       = FormValue string (dispatchRequest (Some ["c1"; "c2"])) "namespace").
Proof.
  exact (MeshOpsHandler_namespace_default Z string string pretty
           world_CreateClient world_NewV4 world_ApplyOperation
           world_GenerateKubeConfig _ _ _ _ _ _ _ _ dispatch_sends).
Defined.

Lemma twins_resolve :
  resolvesTo Z string string pretty (dispatchRequest (Some ["c1"])) twins
    adapterA.
Proof.
  exists 1%nat. split; [reflexivity|]. split; [reflexivity|].
  intros j b Hj Hb. destruct j as [|j]; [|lia].
  simpl in Hb. injection Hb as <-. discriminate.
Qed.

Lemma MeshOpsHandler_first_match_witness :
  (∀ host err,
     EvCreateClient Z string host err
       ∈ (world_MeshOpsHandler (dispatchRequest (Some ["c1"])) twins alice
            localProvider []).2 → host = "A")
  ∧ (∀ host r err,
       EvApplyOperation Z string host r err
         ∈ (world_MeshOpsHandler (dispatchRequest (Some ["c1"])) twins alice
              localProvider []).2 → host = "A").
Proof.
  exact (MeshOpsHandler_first_match Z string string pretty
           world_CreateClient world_NewV4 world_ApplyOperation
           world_GenerateKubeConfig (dispatchRequest (Some ["c1"])) twins
           alice localProvider [] adapterA twins_resolve).
Defined.

Lemma AdapterPingHandler_dials_localhost_witness :
  (world_AdapterPingHandler (request [("adapter", "A")] None) preferences
     []).2
  = [EvDial Z string "localhost:10000" true;
     EvConnClose Z string "localhost:10000";
     EvWrite Z string "{}"].
Proof.
  assert (H := AdapterPingHandler_dials_localhost Z string string pretty
                 world_Dial (request [("adapter", "A")] None) preferences
                 [] 0 adapterA eq_refl eq_refl).
  unfold world_AdapterPingHandler. rewrite H; [reflexivity|].
  intros j b Hj. lia.
Defined.


Definition afterDelete : Preference Z string :=
  {| MeshAdapters := GoSlice.Slice [adapterA; adapterC; adapterC] 0 2 |}.

Definition deleteB : Request string := request [("adapter", "B")] None.

Lemma MeshAdapterConfigHandler_record_failure_witness :
  (world_MeshAdapterConfigHandler "DELETE" deleteB preferences mallory []).1
  = afterDelete
  ∧ hcount Z string (isEncode Z string)
      (world_MeshAdapterConfigHandler "DELETE" deleteB preferences mallory
         []).2 = 0%nat
  ∧ last (world_MeshAdapterConfigHandler "DELETE" deleteB preferences
            mallory []).2
    = Some (Inner Z string
              (EvHttpError Z string
                 (ErrorText (world_ErrRecordPreferences
                               (ErrExternal "store unavailable")))
                 StatusInternalServerError)).
Proof.
  apply (MeshAdapterConfigHandler_record_failure Z string string
           world_CreateClient world_SupportedOperations world_ComponentInfo
           world_GetNextAvailablePort world_TrimSpace world_ErrRetrieveData
           world_ErrRecordPreferences world_ErrMarshal
           world_RecordPreferences world_Encode "DELETE" deleteB preferences
           mallory [] "mallory" afterDelete
           (ErrExternal "store unavailable")).
  apply list_elem_of_In. vm_compute. auto.
Defined.

Lemma MeshAdapterConfigHandler_encodes_recorded_witness :
  [adapterA; adapterC]
  = GoSlice.view
      (MeshAdapters Z string
         (world_MeshAdapterConfigHandler "DELETE" deleteB preferences alice
            []).1)
  ∧ EvRecordPreferences Z string "alice"
      (world_MeshAdapterConfigHandler "DELETE" deleteB preferences alice
         []).1 None
    ∈ (world_MeshAdapterConfigHandler "DELETE" deleteB preferences alice
         []).2.
Proof.
  apply (MeshAdapterConfigHandler_encodes_recorded Z string string
           world_CreateClient world_SupportedOperations world_ComponentInfo
           world_GetNextAvailablePort world_TrimSpace world_ErrRetrieveData
           world_ErrRecordPreferences world_ErrMarshal
           world_RecordPreferences world_Encode "DELETE" deleteB preferences
           alice [] [adapterA; adapterC] None).
  apply list_elem_of_In. vm_compute. auto.
Defined.

Lemma MeshAdapterConfigHandler_remote_calls_witness :
  "POST" = "POST"
  ∧ world_TrimSpace
      (FormValue string (request [("meshLocationURL", "D")] None)
         "meshLocationURL") ≠ ""
  ∧ ∀ a, a ∈ GoSlice.view (MeshAdapters Z string preferences) →
         Host Z string a
         ≠ FormValue string (request [("meshLocationURL", "D")] None)
             "meshLocationURL".
Proof.
  apply (MeshAdapterConfigHandler_remote_calls Z string string
           world_CreateClient world_SupportedOperations world_ComponentInfo
           world_GetNextAvailablePort world_TrimSpace world_ErrRetrieveData
           world_ErrRecordPreferences world_ErrMarshal
           world_RecordPreferences world_Encode "POST"
           (request [("meshLocationURL", "D")] None) preferences alice []
           (EvCreateClient Z string "D" None)).
  - apply list_elem_of_In. vm_compute. auto.
  - reflexivity.
Defined.

Lemma MeshAdapterConfigHandler_duplicate_witness :
  world_MeshAdapterConfigHandler "POST"
    (request [("meshLocationURL", "B")] None) preferences alice []
  = (preferences,
     [EvRecordPreferences Z string "alice" preferences None;
      EvEncode Z string [adapterA; adapterB; adapterC] None]).
Proof.
  destruct (MeshAdapterConfigHandler_duplicate Z string string
              world_CreateClient world_SupportedOperations
              world_ComponentInfo world_GetNextAvailablePort world_TrimSpace
              world_ErrRetrieveData world_ErrRecordPreferences
              world_ErrMarshal world_RecordPreferences world_Encode
              (request [("meshLocationURL", "B")] None) preferences alice [])
    as [Hrun _].
  - discriminate.
  - exists adapterB. split; [|reflexivity].
    apply list_elem_of_In. simpl. auto.
  - unfold world_MeshAdapterConfigHandler. rewrite Hrun. reflexivity.
Defined.

(** A blank address is refused before anything is called or recorded; a
    registration that fails records nothing either. *)
Example MeshAdapterConfigHandler_refusals :
  world_MeshAdapterConfigHandler "POST"
    (request [("meshLocationURL", "   ")] None) preferences alice []
  = (preferences,
     [Inner Z string
        (EvHttpError Z string (ErrorText ErrAddAdapter) StatusBadRequest)])
  ∧ hcount Z string (isRecord Z string)
      (world_MeshAdapterConfigHandler "POST"
         (request [("meshLocationURL", "noinfo:1")] None) preferences alice
         []).2 = 0%nat
  ∧ (world_MeshAdapterConfigHandler "PUT" deleteB preferences alice []).2
    = [Inner Z string
         (EvHttpError Z string (Text "Not Found") StatusNotFound)].
Proof. repeat split; reflexivity. Qed.

End Handlers.

(* ===================================================================== *)
(** ** Package resolver                                                   *)
(* ===================================================================== *)

Module Resolver.

(** [model.Status]; the listing names only [StatusUnknown]. *)
Inductive Status :=
| StatusUnknown
| StatusOther (name : string).

(** [model.Error] *)
Record Error := { Code : string; Description : string }.

(** [model.OperatorControllerStatus]; its fields are pointers. *)
Record OperatorControllerStatus := {
  Name : option string;
  StatusOf : option Status;
  ErrorOf : option Error
}.

Definition meshsyncName : string := "meshsync".

(** A Go [(T, error)] pair of which exactly one side is meaningful. *)
Inductive result (E A : Type) :=
| Ok (a : A)
| Err (e : E).
Arguments Ok {E A} _.
Arguments Err {E A} _.

(** How a run of the consumption loop over the messages delivered so far
    stands: blocked in [select] for the next message, or returned. *)
Inductive Outcome (E : Type) :=
| Blocked
| Returned (err : E).
Arguments Blocked {E}.
Arguments Returned {E} _.

Section Resolver.

(** Go error values, and [err.Error()]. *)
Variable error : Type.
Variable errorText : error → string.

(** [context.Context] *)
Variable Context : Type.

(** The payload of a [broker.Message] (an [interface{}]) and
    [meshsyncmodel.Object], the record that is persisted. *)
Variable MsgObject : Type.
Variable Object : Type.

(** [utils.Marshal] and [utils.Unmarshal] of the meshkit library. *)
Variable Marshal : MsgObject → string * option error.
Variable Unmarshal : string → result error Object.

(** [broker.Message]; the loop reads its [Object] field only. *)
Record Message := { MessageObject : MsgObject }.

Inductive Event :=
| EvReceive (msg : Message)
| EvCreate (object : Object) (err : option error)
| EvSend (status : OperatorControllerStatus).

Definition History := list Event.

(** [database.Handler.Create]: the error of the insertion, as a function
    of everything the pipeline has done so far. *)
Variable env_Create : History → Object → option error.

(** The resolver: the messages waiting on [meshsyncChannel] and the
    history of its database handler. *)
Record Resolver := {
  meshsyncChannel : list Message;
  DBHandler : History
}.

(** *** getMeshSyncStatus *)

Definition getMeshSyncStatus (r : Resolver) (ctx : Context)
  : option OperatorControllerStatus * option error :=
  (None, None).

(** *** recordMeshSyncData *)

Definition recordMeshSyncData (object : Object) (h : History)
  : option error * list Event :=
  let result := env_Create h object in
  (match result with
   | Some err => Some err
   | None => None
   end, [EvCreate object result]).

(** *** listernToEvents *)

(** [objectJSON, _ := utils.Marshal(msg.Object)] followed by
    [utils.Unmarshal(string(objectJSON), &object)]: the error of [Marshal]
    is dropped and its string is decoded whatever it is. *)
Definition decode (msg : Message) : result error Object :=
  let (objectJSON, _) := Marshal (MessageObject msg) in
  Unmarshal objectJSON.

(** One pass through the body of the [for] loop, for the message [msg]
    received from the channel; [Some err] is [return err]. *)
Definition listernToEvents_body (msg : Message) (h : History)
  : option error * list Event :=
  match decode msg with
  | Err err => (Some err, [EvReceive msg])
  | Ok object =>
      let (err, evs) := recordMeshSyncData object (h ++ [EvReceive msg]) in
      (err, EvReceive msg :: evs)
  end.

(** The loop, run against the messages [datach] delivers, in order. *)
Fixpoint listernToEvents (datach : list Message) (h : History)
  : Outcome error * list Event :=
  match datach with
  | [] => (Blocked, [])
  | msg :: rest =>
      let (err, e1) := listernToEvents_body msg h in
      match err with
      | Some err => (Returned err, e1)
      | None =>
          let (out, e2) := listernToEvents rest (h ++ e1) in
          (out, e1 ++ e2)
      end
  end.

(** *** listenToMeshSyncEvents *)

(** The goroutine started by [listenToMeshSyncEvents]: one call of
    [listernToEvents]; if it returns, one status is sent on the channel
    and the goroutine ends. *)
Definition listenToMeshSyncEvents (r : Resolver) : list Event :=
  let (out, evs) := listernToEvents (meshsyncChannel r) (DBHandler r) in
  match out with
  | Returned err =>
      evs ++ [EvSend {| Name := Some meshsyncName;
                        StatusOf := Some StatusUnknown;
                        ErrorOf := Some {| Code := "";
                                           Description := errorText err |} |}]
  | Blocked => evs
  end.

(** *** Observations on an event log *)

(** The records the database accepted, in order of insertion. *)
Definition persisted (evs : list Event) : list Object :=
  flat_map (λ e, match e with EvCreate o None => [o] | _ => [] end) evs.

(** The messages taken from the channel, in order. *)
Definition received (evs : list Event) : list Message :=
  flat_map (λ e, match e with EvReceive m => [m] | _ => [] end) evs.

(** Every call of [Create], successful or not. *)
Definition createAttempts (evs : list Event) : list Object :=
  flat_map (λ e, match e with EvCreate o _ => [o] | _ => [] end) evs.

(** The log of a message that is decoded to [o] and stored. *)
Definition ingested (mo : Message * Object) : list Event :=
  [EvReceive mo.1; EvCreate mo.2 None].

(** *** The loop body *)

Lemma listernToEvents_body_ok (msg : Message) (h : History) (o : Object) :
  decode msg = Ok o →
  env_Create (h ++ [EvReceive msg]) o = None →
  listernToEvents_body msg h = (None, ingested (msg, o)).
Proof.
  intros Hd Hc. unfold listernToEvents_body, recordMeshSyncData.
  by rewrite Hd, Hc.
Qed.

Lemma listernToEvents_body_decode_error (msg : Message) (h : History)
    (err : error) :
  decode msg = Err err →
  listernToEvents_body msg h = (Some err, [EvReceive msg]).
Proof. intros Hd. unfold listernToEvents_body. by rewrite Hd. Qed.

Lemma listernToEvents_body_persist_error (msg : Message) (h : History)
    (o : Object) (err : error) :
  decode msg = Ok o →
  env_Create (h ++ [EvReceive msg]) o = Some err →
  listernToEvents_body msg h
  = (Some err, [EvReceive msg; EvCreate o (Some err)]).
Proof.
  intros Hd Hc. unfold listernToEvents_body, recordMeshSyncData.
  by rewrite Hd, Hc.
Qed.

(** A pass that does not return has decoded its message and stored the
    record. *)
Lemma listernToEvents_body_continue (msg : Message) (h : History)
    (evs : list Event) :
  listernToEvents_body msg h = (None, evs) →
  ∃ o, decode msg = Ok o ∧ env_Create (h ++ [EvReceive msg]) o = None
       ∧ evs = ingested (msg, o).
Proof.
  unfold listernToEvents_body, recordMeshSyncData.
  destruct (decode msg) as [o|e]; [|done].
  destruct (env_Create _ o) eqn:Hc; [done|].
  intros [= <-]. exists o. by rewrite Hc.
Qed.

(** *** Prefixes of the message stream *)

Lemma listernToEvents_app_blocked (l1 l2 : list Message) (h : History)
    (e1 : list Event) :
  listernToEvents l1 h = (Blocked, e1) →
  listernToEvents (l1 ++ l2) h
  = ((listernToEvents l2 (h ++ e1)).1, e1 ++ (listernToEvents l2 (h ++ e1)).2).
Proof.
  revert h e1. induction l1 as [|m l1 IH]; intros h e1; simpl.
  - intros [= <-]. rewrite app_nil_r. by destruct (listernToEvents l2 h).
  - destruct (listernToEvents_body m h) as [[err|] eb]; [done|].
    destruct (listernToEvents l1 (h ++ eb)) as [out e2] eqn:Hl1.
    intros [= -> <-]. rewrite (IH _ _ Hl1). simpl.
    by rewrite !app_assoc.
Qed.

(** Once the loop has returned, later messages change nothing. *)
Lemma listernToEvents_app_returned (l1 l2 : list Message) (h : History)
    (e1 : list Event) (err : error) :
  listernToEvents l1 h = (Returned err, e1) →
  listernToEvents (l1 ++ l2) h = (Returned err, e1).
Proof.
  revert h e1. induction l1 as [|m l1 IH]; intros h e1; simpl; [done|].
  destruct (listernToEvents_body m h) as [[e|] eb]; [done|].
  destruct (listernToEvents l1 (h ++ eb)) as [out e2] eqn:Hl1.
  intros [= -> <-]. by rewrite (IH _ _ Hl1).
Qed.

(** A loop that is still waiting has ingested every message delivered:
    one receive and one accepted insertion per message, in order. *)
Lemma listernToEvents_blocked_inv (l : list Message) (h : History)
    (evs : list Event) :
  listernToEvents l h = (Blocked, evs) →
  ∃ objs, Forall2 (λ m o, decode m = Ok o) l objs
          ∧ evs = flat_map ingested (zip l objs)
          ∧ received evs = l
          ∧ persisted evs = objs
          ∧ createAttempts evs = objs.
Proof.
  revert h evs. induction l as [|m l IH]; intros h evs; simpl.
  - intros [= <-]. exists []. by repeat split.
  - destruct (listernToEvents_body m h) as [[err|] eb] eqn:Hb; [done|].
    destruct (listernToEvents l (h ++ eb)) as [out e2] eqn:Hl.
    intros [= -> <-].
    destruct (listernToEvents_body_continue _ _ _ Hb) as (o & Hd & _ & ->).
    destruct (IH _ _ Hl) as (objs & Hall & -> & Hr & Hp & Hc).
    exists (o :: objs). split; [by constructor|]. split; [done|].
    simpl. by rewrite Hr, Hp, Hc.
Qed.

(** Every run is of one of two kinds: all delivered messages ingested
    and the loop waiting, or a first failing message at which it returned. *)
Lemma listernToEvents_cases (l : list Message) (h : History) :
  (∃ evs, listernToEvents l h = (Blocked, evs))
  ∨ ∃ good bad rest evs evb err,
      l = good ++ bad :: rest
      ∧ listernToEvents good h = (Blocked, evs)
      ∧ listernToEvents_body bad (h ++ evs) = (Some err, evb)
      ∧ listernToEvents l h = (Returned err, evs ++ evb).
Proof.
  revert h. induction l as [|m l IH]; intros h.
  - left. by exists [].
  - simpl. destruct (listernToEvents_body m h) as [[err|] eb] eqn:Hb.
    + right. exists [], m, l, [], eb, err. simpl.
      by rewrite app_nil_r, Hb.
    + destruct (IH (h ++ eb))
        as [(evs & Hl)|(good & bad & rest & evs & evb & err
                        & -> & Hgood & Hbad & Hl)];
        rewrite Hl.
      * left. by eexists.
      * right. exists (m :: good), bad, rest, (eb ++ evs), evb, err.
        simpl. rewrite Hb, Hgood. rewrite <- app_assoc in Hbad.
        by rewrite Hbad, <- app_assoc.
Qed.

(** C7.  Let the loop have ingested the messages [good] and let the next
    message [bad] fail to decode, or decode and fail to be stored, with
    error [err].  Then the loop returns [err]; the messages taken from the
    channel are [good] followed by [bad] and none of [rest]; the records
    stored are those of [good], one per message; no message gets more than
    one insertion attempt; and the goroutine that runs the loop sends one
    status carrying the error text and ends. *)
Theorem listernToEvents_failure_is_fatal (good rest : list Message)
    (bad : Message) (h : History) (evs : list Event) (err : error) :
  listernToEvents good h = (Blocked, evs) →
  (decode bad = Err err
   ∨ ∃ o, decode bad = Ok o
          ∧ env_Create ((h ++ evs) ++ [EvReceive bad]) o = Some err) →
  ∃ evb,
    listernToEvents (good ++ bad :: rest) h = (Returned err, evs ++ evb)
    ∧ received (evs ++ evb) = good ++ [bad]
    ∧ persisted (evs ++ evb) = persisted evs
    ∧ length (persisted evs) = length good
    ∧ (length (createAttempts (evs ++ evb)) ≤ length (good ++ [bad]))%nat
    ∧ listenToMeshSyncEvents
        {| meshsyncChannel := good ++ bad :: rest; DBHandler := h |}
      = (evs ++ evb)
        ++ [EvSend {| Name := Some meshsyncName;
                      StatusOf := Some StatusUnknown;
                      ErrorOf := Some {| Code := "";
                                         Description := errorText err |} |}].
Proof.
  intros Hgood Hbad.
  destruct (listernToEvents_blocked_inv _ _ _ Hgood)
    as (objs & Hall & Hevs & Hr & Hp & Hc).
  assert (∃ evb, listernToEvents_body bad (h ++ evs) = (Some err, evb)
                 ∧ received evb = [bad] ∧ persisted evb = []
                 ∧ (length (createAttempts evb) ≤ 1)%nat)
    as (evb & Hb & Hrb & Hpb & Hcb).
  { destruct Hbad as [Hd|(o & Hd & Hcr)].
    - eexists. split; [by apply listernToEvents_body_decode_error|].
      simpl. by repeat split; lia.
    - eexists. split; [by eapply listernToEvents_body_persist_error|].
      simpl. by repeat split; lia. }
  assert (Hrun : listernToEvents (good ++ bad :: rest) h
                 = (Returned err, evs ++ evb)).
  { rewrite (listernToEvents_app_blocked _ _ _ _ Hgood). simpl.
    by rewrite Hb. }
  exists evb. split; [done|].
  unfold received, persisted, createAttempts in *.
  rewrite !flat_map_app, Hr, Hrb, Hp, Hpb, Hc, app_nil_r, !length_app.
  pose proof (Forall2_length _ _ _ Hall) as Hlen. simpl.
  repeat split; [lia..|].
  unfold listenToMeshSyncEvents. simpl. by rewrite Hrun.
Qed.

(** C8.  When every message of [msgs] decodes (to the records [objs]) and
    the database accepts those records, the loop handles the messages one
    after the other: its log is, for each message in arrival order, the
    receive followed by the insertion of its record; the records stored are
    [objs], one per message, in the order of the messages; and the loop is
    left waiting for the next message. *)
Theorem listernToEvents_well_formed_in_order (msgs : list Message)
    (objs : list Object) (h : History) :
  Forall2 (λ m o, decode m = Ok o) msgs objs →
  (∀ h' o, o ∈ objs → env_Create h' o = None) →
  listernToEvents msgs h = (Blocked, flat_map ingested (zip msgs objs))
  ∧ persisted (listernToEvents msgs h).2 = objs
  ∧ received (listernToEvents msgs h).2 = msgs
  ∧ length (persisted (listernToEvents msgs h).2) = length msgs.
Proof.
  intros Hall Hdb.
  assert (Hrun : listernToEvents msgs h
                 = (Blocked, flat_map ingested (zip msgs objs))).
  { revert h. induction Hall as [|m o msgs objs Hd Hall IH]; intros h.
    - done.
    - simpl. rewrite (listernToEvents_body_ok m h o Hd).
      2:{ apply Hdb. by left. }
      rewrite IH; [done|]. intros h' o' Ho'. apply Hdb. by right. }
  destruct (listernToEvents_blocked_inv _ _ _ Hrun)
    as (objs' & Hall' & _ & Hr & Hp & _).
  rewrite Hrun. simpl. rewrite Hr, Hp.
  assert (objs' = objs) as ->.
  { clear -Hall Hall'. revert objs' Hall'.
    induction Hall as [|m o msgs objs Hd _ IH]; intros objs' Hall'.
    - by inversion Hall'.
    - inversion Hall' as [|? o' ? objs'' Hd' Hall'']; subst.
      f_equal; [congruence|by apply IH]. }
  repeat split. symmetry. by eapply Forall2_length.
Qed.

(** *** The status query *)

(** C9, as amended.  [getMeshSyncStatus] returns a nil status and a nil
    error, whatever the resolver and the context: no status record is
    built, neither with status "unknown" nor with any other. *)
Theorem getMeshSyncStatus_nil (r : Resolver) (ctx : Context) :
  getMeshSyncStatus r ctx = (None, None)
  ∧ (∀ r' ctx', getMeshSyncStatus r' ctx' = getMeshSyncStatus r ctx)
  ∧ ¬ ∃ st, (getMeshSyncStatus r ctx).1 = Some st.
Proof.
  split; [reflexivity|]. split; [by intros r' ctx'|].
  intros (st & Hst). discriminate Hst.
Qed.


(* --------------------------------------------------------------------- *)
(** *** Invariants of the consumption loop                                *)
(* --------------------------------------------------------------------- *)

(** The statuses sent on the channel of the subscription. *)
Definition sent (evs : list Event) : list OperatorControllerStatus :=
  flat_map (λ e, match e with EvSend s => [s] | _ => [] end) evs.

(** The status the goroutine sends for the error [err]. *)
Definition failureStatus (err : error) : OperatorControllerStatus :=
  {| Name := Some meshsyncName;
     StatusOf := Some StatusUnknown;
     ErrorOf := Some {| Code := ""; Description := errorText err |} |}.

(** A pass that returns has received its message and stored nothing. *)
Lemma listernToEvents_body_stop (msg : Message) (h : History)
    (err : error) (evs : list Event) :
  listernToEvents_body msg h = (Some err, evs) →
  received evs = [msg] ∧ persisted evs = [] ∧ sent evs = []
  ∧ (length (createAttempts evs) ≤ 1)%nat.
Proof.
  unfold listernToEvents_body, recordMeshSyncData.
  destruct (decode msg) as [o|e].
  - destruct (env_Create _ o); [|done]. intros [= <- <-]. simpl.
    by repeat split.
  - intros [= <- <-]. simpl. repeat split. lia.
Qed.

Lemma sent_ingested (l : list (Message * Object)) :
  sent (flat_map ingested l) = [].
Proof. induction l as [|x l IH]; [done|]. simpl. exact IH. Qed.

(** The loop itself sends nothing. *)
Lemma listernToEvents_sends_nothing (l : list Message) (h : History) :
  sent (listernToEvents l h).2 = [].
Proof.
  destruct (listernToEvents_cases l h)
    as [(evs & Hrun)|(good & bad & rest & evs & evb & err
                      & _ & Hgood & Hbad & Hrun)]; rewrite Hrun; simpl.
  - destruct (listernToEvents_blocked_inv _ _ _ Hrun) as (objs & _ & -> & _).
    apply sent_ingested.
  - destruct (listernToEvents_blocked_inv _ _ _ Hgood) as (objs & _ & -> & _).
    destruct (listernToEvents_body_stop _ _ _ _ Hbad) as (_ & _ & Hs & _).
    unfold sent in *. by rewrite flat_map_app, Hs, app_nil_r, sent_ingested.
Qed.

(** X24.  Delivering more messages never changes what has been done: the
    log of the loop over the first messages is a prefix of its log over
    any longer stream, and so are the records stored. *)
Theorem listernToEvents_log_grows (l1 l2 : list Message) (h : History) :
  (listernToEvents l1 h).2 `prefix_of` (listernToEvents (l1 ++ l2) h).2
  ∧ persisted (listernToEvents l1 h).2
      `prefix_of` persisted (listernToEvents (l1 ++ l2) h).2.
Proof.
  destruct (listernToEvents l1 h) as [[|err] e1] eqn:Hrun.
  - rewrite (listernToEvents_app_blocked _ _ _ _ Hrun). simpl.
    split; [by eexists|].
    unfold persisted. rewrite flat_map_app. by eexists.
  - by rewrite (listernToEvents_app_returned _ l2 _ _ _ Hrun).
Qed.

(** X25.  At every moment the records stored are the decodings of the
    first messages delivered, one per message and in order; the messages
    received are those same messages, or those and the one after them at
    which the loop returned; and no message is stored twice. *)
Theorem listernToEvents_stores_a_prefix (l : list Message) (h : History) :
  let evs := (listernToEvents l h).2 in
  let n := length (persisted evs) in
  Forall2 (λ m o, decode m = Ok o) (take n l) (persisted evs)
  ∧ (received evs = take n l ∨ received evs = take (S n) l)
  ∧ (length (createAttempts evs) ≤ length (received evs))%nat
  ∧ ((listernToEvents l h).1 = Blocked → received evs = l).
Proof.
  intros evs n. subst evs n.
  destruct (listernToEvents_cases l h)
    as [(evs & Hrun)|(good & bad & rest & evs & evb & err
                      & -> & Hgood & Hbad & Hrun)]; rewrite Hrun; simpl.
  - destruct (listernToEvents_blocked_inv _ _ _ Hrun)
      as (objs & Hall & _ & Hr & Hp & Hc).
    pose proof (Forall2_length _ _ _ Hall) as Hlen.
    rewrite Hp, Hr, Hc, <- Hlen, take_ge by done.
    split; [done|]. split; [by left|]. split; [lia|done].
  - destruct (listernToEvents_blocked_inv _ _ _ Hgood)
      as (objs & Hall & _ & Hr & Hp & Hc).
    destruct (listernToEvents_body_stop _ _ _ _ Hbad)
      as (Hrb & Hpb & _ & Hcb).
    pose proof (Forall2_length _ _ _ Hall) as Hlen.
    unfold persisted, received, createAttempts in *.
    rewrite !flat_map_app, Hp, Hpb, Hr, Hrb, Hc, app_nil_r, <- Hlen.
    rewrite take_app_length. split; [done|]. split.
    + right. rewrite <- Nat.add_1_r. by rewrite take_app_add'.
    + rewrite !length_app. simpl. split; [lia|done].
Qed.

(** X26.  The subscription is silent while the loop is waiting, whatever
    it has ingested; when the loop returns, one status is sent, named
    [meshsync], with status unknown, an empty code and the text of the
    error, after everything the loop did. *)
Theorem listenToMeshSyncEvents_status (r : Resolver) :
  let run := listernToEvents (meshsyncChannel r) (DBHandler r) in
  match run.1 with
  | Blocked =>
      listenToMeshSyncEvents r = run.2
      ∧ sent (listenToMeshSyncEvents r) = []
  | Returned err =>
      listenToMeshSyncEvents r = run.2 ++ [EvSend (failureStatus err)]
      ∧ sent (listenToMeshSyncEvents r) = [failureStatus err]
  end.
Proof.
  intros run. subst run. unfold listenToMeshSyncEvents.
  pose proof (listernToEvents_sends_nothing (meshsyncChannel r) (DBHandler r))
    as Hsilent.
  destruct (listernToEvents (meshsyncChannel r) (DBHandler r))
    as [[|err] evs]; simpl in *.
  - done.
  - split; [done|]. unfold sent in *.
    by rewrite flat_map_app, Hsilent.
Qed.

(** X27.  The error of [Marshal] is dropped: a message whose payload
    marshals with an error, but to a text that decodes, is stored like any
    other, and the loop goes on to the next message. *)
Theorem listernToEvents_ignores_marshal_error (msg : Message)
    (rest : list Message) (h : History) (json : string) (e : error)
    (o : Object) :
  Marshal (MessageObject msg) = (json, Some e) →
  Unmarshal json = Ok o →
  env_Create (h ++ [EvReceive msg]) o = None →
  listernToEvents (msg :: rest) h
  = ((listernToEvents rest (h ++ ingested (msg, o))).1,
     ingested (msg, o)
     ++ (listernToEvents rest (h ++ ingested (msg, o))).2)
  ∧ o ∈ persisted (listernToEvents (msg :: rest) h).2.
Proof.
  intros Hm Hu Hc.
  assert (Hd : decode msg = Ok o) by (unfold decode; by rewrite Hm).
  assert (Hrun : listernToEvents (msg :: rest) h
    = ((listernToEvents rest (h ++ ingested (msg, o))).1,
       ingested (msg, o)
       ++ (listernToEvents rest (h ++ ingested (msg, o))).2)).
  { simpl. rewrite (listernToEvents_body_ok msg h o Hd Hc).
    by destruct (listernToEvents rest _). }
  split; [done|]. rewrite Hrun. simpl. by left.
Qed.

End Resolver.

(** *** A concrete stream

    Payloads and records are texts; errors are their own description; the
    payload [not json] does not decode; the database accepts everything
    except the record [rejected]. *)

Abbreviation message := (Message string).
Abbreviation event := (Event string string string).

Definition text_Marshal (payload : string) : string * option string :=
  (payload, None).

Definition text_Unmarshal (json : string) : result string string :=
  if decide (json = "not json") then Err "invalid character"
  else Ok json.

Definition store_Create (h : list event) (object : string) : option string :=
  if decide (object = "rejected") then Some "insert failed" else None.

Definition run_listernToEvents :=
  listernToEvents string string string text_Marshal text_Unmarshal
    store_Create.

Definition m1 : message := {| MessageObject := "pod-1" |}.
Definition m2 : message := {| MessageObject := "pod-2" |}.
Definition m3 : message := {| MessageObject := "svc-1" |}.
Definition malformed : message := {| MessageObject := "not json" |}.
Definition unstorable : message := {| MessageObject := "rejected" |}.

(** Two well-formed messages, a malformed one, one more: two records. *)
Example two_records_then_halt :
  run_listernToEvents [m1; m2; malformed; m3] []
  = (Returned "invalid character",
     [EvReceive _ _ _ m1; EvCreate _ _ _ "pod-1" None;
      EvReceive _ _ _ m2; EvCreate _ _ _ "pod-2" None;
      EvReceive _ _ _ malformed])
  ∧ persisted _ _ _ (run_listernToEvents [m1; m2; malformed; m3] []).2
    = ["pod-1"; "pod-2"].
Proof. split; reflexivity. Qed.

(** A storage failure stops the loop in the same way. *)
Example storage_failure_halts :
  run_listernToEvents [m1; unstorable; m2] []
  = (Returned "insert failed",
     [EvReceive _ _ _ m1; EvCreate _ _ _ "pod-1" None;
      EvReceive _ _ _ unstorable;
      EvCreate _ _ _ "rejected" (Some "insert failed")]).
Proof. reflexivity. Qed.

Lemma listernToEvents_failure_is_fatal_witness :
  ∃ evb,
    run_listernToEvents ([m1; m2] ++ malformed :: [m3]) []
    = (Returned "invalid character",
       [EvReceive _ _ _ m1; EvCreate _ _ _ "pod-1" None;
        EvReceive _ _ _ m2; EvCreate _ _ _ "pod-2" None] ++ evb)
    ∧ received _ _ _
        ([EvReceive _ _ _ m1; EvCreate _ _ _ "pod-1" None;
          EvReceive _ _ _ m2; EvCreate _ _ _ "pod-2" None] ++ evb)
      = [m1; m2] ++ [malformed]
    ∧ persisted _ _ _
        ([EvReceive _ _ _ m1; EvCreate _ _ _ "pod-1" None;
          EvReceive _ _ _ m2; EvCreate _ _ _ "pod-2" None] ++ evb)
      = ["pod-1"; "pod-2"].
Proof.
  destruct (listernToEvents_failure_is_fatal string id string string
              text_Marshal text_Unmarshal store_Create
              [m1; m2] [m3] malformed []
              [EvReceive _ _ _ m1; EvCreate _ _ _ "pod-1" None;
               EvReceive _ _ _ m2; EvCreate _ _ _ "pod-2" None]
              "invalid character")
    as (evb & Hrun & Hrecv & Hpers & _).
  - reflexivity.
  - left. reflexivity.
  - exists evb. split; [exact Hrun|]. split; [exact Hrecv|exact Hpers].
Defined.

Lemma listernToEvents_well_formed_in_order_witness :
  run_listernToEvents [m1; m2; m3] []
  = (Blocked,
     [EvReceive _ _ _ m1; EvCreate _ _ _ "pod-1" None;
      EvReceive _ _ _ m2; EvCreate _ _ _ "pod-2" None;
      EvReceive _ _ _ m3; EvCreate _ _ _ "svc-1" None])
  ∧ persisted _ _ _ (run_listernToEvents [m1; m2; m3] []).2
    = ["pod-1"; "pod-2"; "svc-1"]
  ∧ received _ _ _ (run_listernToEvents [m1; m2; m3] []).2 = [m1; m2; m3]
  ∧ length (persisted _ _ _ (run_listernToEvents [m1; m2; m3] []).2)
    = 3%nat.
Proof.
  apply (listernToEvents_well_formed_in_order string string string
           text_Marshal text_Unmarshal store_Create [m1; m2; m3]
           ["pod-1"; "pod-2"; "svc-1"] []).
  - repeat constructor.
  - intros h' o Ho. apply list_elem_of_In in Ho. simpl in Ho.
    destruct Ho as [<-|[<-|[<-|[]]]]; reflexivity.
Defined.

(** C9, as stated, fails: the query does not return a status record whose
    status is "unknown"; it returns no record at all. *)
Lemma getMeshSyncStatus_unknown_counterexample :
  ¬ ∃ st,
      (getMeshSyncStatus string unit string string
         {| meshsyncChannel := [m1]; DBHandler := [] |} tt).1 = Some st
      ∧ StatusOf st = Some StatusUnknown
      ∧ ErrorOf st = None.
Proof. intros (st & Hst & _). discriminate Hst. Qed.


(** A codec whose [Marshal] always reports an error beside its text. *)
Definition lossy_Marshal (payload : string) : string * option string :=
  (payload, Some "marshal failed").

Lemma listernToEvents_ignores_marshal_error_witness :
  listernToEvents string string string lossy_Marshal text_Unmarshal
    store_Create (m1 :: [m2]) []
  = ((listernToEvents string string string lossy_Marshal text_Unmarshal
        store_Create [m2] ([] ++ ingested _ _ _ (m1, "pod-1"))).1,
     ingested _ _ _ (m1, "pod-1")
     ++ (listernToEvents string string string lossy_Marshal text_Unmarshal
           store_Create [m2] ([] ++ ingested _ _ _ (m1, "pod-1"))).2)
  ∧ "pod-1"
    ∈ persisted _ _ _
        (listernToEvents string string string lossy_Marshal text_Unmarshal
           store_Create (m1 :: [m2]) []).2.
Proof.
  apply (listernToEvents_ignores_marshal_error string string string
           lossy_Marshal text_Unmarshal store_Create m1 [m2] [] "pod-1"
           "marshal failed" "pod-1"); reflexivity.
Defined.

End Resolver.
